(** * Plywood cutting optimizer: the shelf packing of [app.py]

    A shallow embedding of [arrange_panels] (the greedy shelf packing with
    optional 90 degree rotation) and of the figures computed by
    [optimize_cutting], followed by the properties of the placement.

    Lengths are integer millimetres ([Z]); the figures of the summary, which
    the program obtains by division, are rationals ([Q]). *)

From Stdlib Require Import ZArith List Bool Lia Permutation Sorted QArith Lqa.
Import ListNotations.
Open Scope Z_scope.

(** ** Data *)

(** One row of the panel table: the columns [Panel Width (mm)],
    [Panel Height (mm)], [Panel Depth (mm)] and [Quantity]. *)
Record PanelRequest : Type := mkRequest {
  panel_width : Z;
  panel_height : Z;
  panel_depth : Z;
  quantity : Z
}.

(** One panel to place: the tuple [(width, height, depth)] appended to
    [panels]. *)
Record PanelInstance : Type := mkInstance {
  width : Z;
  height : Z;
  depth : Z
}.

(** One entry of a sheet: the tuple [(x, y, w, h, d, rotated)]. *)
Record PlacedPanel : Type := mkPlaced {
  pos_x : Z;
  pos_y : Z;
  placed_width : Z;
  placed_height : Z;
  placed_depth : Z;
  rotated : bool
}.

Definition Sheet : Type := list PlacedPanel.
Definition PackingResult : Type := list Sheet.

(** ** The panel table (lines 10-17) *)

Definition initialize_panel_list : list PanelRequest := [].

(** [panel_list.append(new_panel, ignore_index=True)]: a new table, with the
    row added at the end. *)
Definition add_panel (panel_list : list PanelRequest)
    (w h d q : Z) : list PanelRequest :=
  panel_list ++ [mkRequest w h d q].

(** ** Catalog expansion (lines 21-24) *)

Definition instance_of (row : PanelRequest) : PanelInstance :=
  mkInstance (panel_width row) (panel_height row) (panel_depth row).

(** [for _ in range(int(row["Quantity"]))]: a quantity below one gives no
    copy. *)
Definition expand (panel_list : list PanelRequest) : list PanelInstance :=
  flat_map (fun row => repeat (instance_of row) (Z.to_nat (quantity row)))
           panel_list.

(** ** The sort (line 26) *)

(** The sort key [lambda x: x[0]*x[1]]. *)
Definition area (p : PanelInstance) : Z := width p * height p.

Section StableSort.
Context {A : Type} (key : A -> Z).

(** [a] is put in front of the first element whose key is not larger:
    it comes from further left in the list being sorted than everything
    already in [l]. *)
Fixpoint insert_desc (a : A) (l : list A) : list A :=
  match l with
  | [] => [a]
  | b :: l' =>
      if key a <? key b then b :: insert_desc a l' else a :: b :: l'
  end.

(** [list.sort(key=key, reverse=True)]: decreasing keys, and, the sort
    being stable also when reversed, equal keys in their original order. *)
Definition sort_desc (l : list A) : list A :=
  fold_right insert_desc [] l.

(** The order of the sorted list: keys do not increase. *)
Definition key_ge (a b : A) : Prop := key b <= key a.
End StableSort.

(** ** The placement loop (lines 28-73) *)

Record PackingState : Type := mkState {
  sheets : list Sheet;
  current_sheet : Sheet;
  x_cursor : Z;
  y_cursor : Z;
  row_height : Z
}.

Definition initial_state : PackingState := mkState [] [] 0 0 0.

(** [current_sheet.append((x_cursor, y_cursor, w, h, depth, rot))],
    [x_cursor += w], [row_height = max(row_height, h)]. *)
Definition put (st : PackingState) (w h d : Z) (rot : bool) : PackingState :=
  mkState (sheets st)
          (current_sheet st ++ [mkPlaced (x_cursor st) (y_cursor st) w h d rot])
          (x_cursor st + w)
          (y_cursor st)
          (Z.max (row_height st) h).

(** [x_cursor = 0], [y_cursor += row_height], [row_height = 0]. *)
Definition new_row (st : PackingState) : PackingState :=
  mkState (sheets st) (current_sheet st) 0 (y_cursor st + row_height st) 0.

(** The body of [if not placed:]. *)
Definition new_sheet (st : PackingState) (p : PanelInstance) : PackingState :=
  mkState (sheets st ++ [current_sheet st])
          [mkPlaced 0 0 (width p) (height p) (depth p) false]
          (0 + width p)
          0
          (height p).

(** The first part of the loop body: the state after the [if]/[elif]/[else]
    of lines 36-62, and the flag [placed]. *)
Definition try_place (sheet_width sheet_height : Z) (st : PackingState)
    (p : PanelInstance) : PackingState * bool :=
  if (x_cursor st + width p <=? sheet_width)
     && (y_cursor st + height p <=? sheet_height)
  then (put st (width p) (height p) (depth p) false, true)
  else if (x_cursor st + height p <=? sheet_width)
          && (y_cursor st + width p <=? sheet_height)
  then (put st (height p) (width p) (depth p) true, true)
  else
    let st' := new_row st in
    if y_cursor st' + height p <=? sheet_height
    then (put st' (width p) (height p) (depth p) false, true)
    else if y_cursor st' + width p <=? sheet_height
    then (put st' (height p) (width p) (depth p) true, true)
    else (st', false).

(** One iteration of [for width, height, depth in panels]. *)
Definition place_panel (sheet_width sheet_height : Z) (st : PackingState)
    (p : PanelInstance) : PackingState :=
  let '(st', placed) := try_place sheet_width sheet_height st p in
  if negb placed then new_sheet st' p else st'.

(** The loop, and the final [sheets.append(current_sheet)]. *)
Definition place_all (sheet_width sheet_height : Z)
    (panels : list PanelInstance) : PackingResult :=
  let st := fold_left (place_panel sheet_width sheet_height) panels
                      initial_state in
  sheets st ++ [current_sheet st].

(** The packing engine on a sequence of instances: lines 26-73. *)
Definition pack (sheet_width sheet_height : Z)
    (instances : list PanelInstance) : PackingResult :=
  place_all sheet_width sheet_height (sort_desc area instances).

Definition arrange_panels (sheet_width sheet_height : Z)
    (panel_list : list PanelRequest) : PackingResult :=
  pack sheet_width sheet_height (expand panel_list).

(** A call either returns its sheets or stops with an error that names an
    instance.  [arrange_panels] contains no [raise] and no validation of its
    arguments, so every call of it returns. *)
Inductive outcome : Type :=
| Returned (result : PackingResult)
| PanelTooLargeForSheet (offender : PanelInstance).

Definition run_arrange_panels (sheet_width sheet_height : Z)
    (panel_list : list PanelRequest) : outcome :=
  Returned (arrange_panels sheet_width sheet_height panel_list).

(** ** The figures of [optimize_cutting] (lines 126-130, 139) *)

Definition sum_Z (l : list Z) : Z := fold_right Z.add 0 l.

Record Summary : Type := mkSummary {
  total_panels : Z;
  sheet_count : nat;
  total_panel_area : Q;
  total_sheet_area : Q;
  waste_area : Q;
  utilization : Q;
  waste_percentage : Q
}.

(** The quotients are exact here.  [total_sheet_area] is not zero when the
    sheet has positive sides, the result holding at least one sheet; the
    properties of [utilization] below are stated for such sheets. *)
Definition optimize_cutting (sheet_width sheet_height : Z)
    (panel_list : list PanelRequest) : Summary :=
  let sheets := arrange_panels sheet_width sheet_height panel_list in
  let total_panels := sum_Z (map quantity panel_list) in
  let total_panel_area :=
    (inject_Z (sum_Z (map (fun row => panel_width row * panel_height row
                                      * quantity row) panel_list)%Z)
     / 1000000)%Q in
  let total_sheet_area :=
    (inject_Z (sheet_width * sheet_height)%Z / 1000000
     * inject_Z (Z.of_nat (length sheets)))%Q in
  let waste_area := (total_sheet_area - total_panel_area)%Q in
  let utilization := ((total_panel_area / total_sheet_area) * 100)%Q in
  mkSummary total_panels (length sheets) total_panel_area total_sheet_area
            waste_area utilization (100 - utilization)%Q.

(** ** Vocabulary of the properties *)

(** The placement lies on a sheet of the given size. *)
Definition in_bounds (sheet_width sheet_height : Z) (q : PlacedPanel) : Prop :=
  0 <= pos_x q /\ 0 <= pos_y q
  /\ pos_x q + placed_width q <= sheet_width
  /\ pos_y q + placed_height q <= sheet_height.

(** The instance fits the sheet as it is, or turned by 90 degrees. *)
Definition fits_unrotated (sheet_width sheet_height : Z) (p : PanelInstance)
  : bool :=
  (width p <=? sheet_width) && (height p <=? sheet_height).

Definition fits_rotated (sheet_width sheet_height : Z) (p : PanelInstance)
  : bool :=
  (height p <=? sheet_width) && (width p <=? sheet_height).

Definition fits_sheet (sheet_width sheet_height : Z) (p : PanelInstance)
  : bool :=
  fits_unrotated sheet_width sheet_height p
  || fits_rotated sheet_width sheet_height p.

Definition fits_both_ways (sheet_width sheet_height : Z) (p : PanelInstance)
  : bool :=
  fits_unrotated sheet_width sheet_height p
  && fits_rotated sheet_width sheet_height p.

(** Sides as the data model has them, and the weaker form the proofs need. *)
Definition nonneg_dims (p : PanelInstance) : Prop :=
  0 <= width p /\ 0 <= height p.

Definition positive_dims (p : PanelInstance) : Prop :=
  0 < width p /\ 0 < height p.

(** The instance a placement was made from: the stored sides, swapped back
    when the placement is rotated. *)
Definition source_instance (q : PlacedPanel) : PanelInstance :=
  if rotated q
  then mkInstance (placed_height q) (placed_width q) (placed_depth q)
  else mkInstance (placed_width q) (placed_height q) (placed_depth q).

(** What the rotation flag promises about the stored sides. *)
Definition placed_from (p : PanelInstance) (q : PlacedPanel) : Prop :=
  placed_depth q = depth p
  /\ (rotated q = true ->
      placed_width q = height p /\ placed_height q = width p)
  /\ (rotated q = false ->
      placed_width q = width p /\ placed_height q = height p).

(** The area of the stored rectangle. *)
Definition placed_area (q : PlacedPanel) : Z :=
  placed_width q * placed_height q.

(** The unit cell at [(a, b)] lies under the placed rectangle
    [[x, x+w) x [y, y+h)]. *)
Definition covers (q : PlacedPanel) (a b : Z) : Prop :=
  pos_x q <= a < pos_x q + placed_width q
  /\ pos_y q <= b < pos_y q + placed_height q.

(** Two rectangles share area when some unit cell lies under both. *)
Definition overlap (q1 q2 : PlacedPanel) : Prop :=
  exists a b, covers q1 a b /\ covers q2 a b.

(** One rectangle ends where the other begins, along [x] or along [y]. *)
Definition separated (q1 q2 : PlacedPanel) : Prop :=
  pos_x q1 + placed_width q1 <= pos_x q2
  \/ pos_x q2 + placed_width q2 <= pos_x q1
  \/ pos_y q1 + placed_height q1 <= pos_y q2
  \/ pos_y q2 + placed_height q2 <= pos_y q1.

(** The position, the stored sides and the flag of a placement: all of it
    but the depth. *)
Definition geometry (q : PlacedPanel) : Z * Z * Z * Z * bool :=
  (pos_x q, pos_y q, placed_width q, placed_height q, rotated q).

(** All placements made so far, in the order they were made. *)
Definition placements (st : PackingState) : list PlacedPanel :=
  concat (sheets st) ++ current_sheet st.

(** ** Predicates of the proofs *)

(** The cases of the loop body, as the five ways an instance is placed. *)
Inductive step_case (W H : Z) (st : PackingState) (p : PanelInstance)
  : PackingState -> Prop :=
| case_row :
    x_cursor st + width p <= W -> y_cursor st + height p <= H ->
    step_case W H st p (put st (width p) (height p) (depth p) false)
| case_row_rotated :
    x_cursor st + height p <= W -> y_cursor st + width p <= H ->
    step_case W H st p (put st (height p) (width p) (depth p) true)
| case_new_row :
    y_cursor st + row_height st + height p <= H ->
    step_case W H st p
      (put (new_row st) (width p) (height p) (depth p) false)
| case_new_row_rotated :
    y_cursor st + row_height st + width p <= H ->
    step_case W H st p
      (put (new_row st) (height p) (width p) (depth p) true)
| case_new_sheet :
    step_case W H st p (new_sheet (new_row st) p).

(** Sides that are not negative, and room on the sheet both ways. *)
Definition fits_well (W H : Z) (p : PanelInstance) : Prop :=
  nonneg_dims p /\ fits_both_ways W H p = true.

(** The cursors never leave the first quadrant and every placement made so
    far lies on its sheet. *)
Definition bounds_inv (W H : Z) (st : PackingState) : Prop :=
  0 <= x_cursor st /\ 0 <= y_cursor st /\ 0 <= row_height st
  /\ Forall (in_bounds W H) (placements st).

(** Where a placement of the current sheet lies: in a row that is closed,
    hence above the cursor, or in the open row, left of the cursor and no
    taller than the row. *)
Definition in_shelf (st : PackingState) (q : PlacedPanel) : Prop :=
  pos_y q + placed_height q <= y_cursor st
  \/ (pos_y q = y_cursor st
      /\ pos_x q + placed_width q <= x_cursor st
      /\ placed_height q <= row_height st).

(** On every sheet, a placement is separated from the ones made after it. *)
Definition shelf_inv (st : PackingState) : Prop :=
  0 <= row_height st
  /\ Forall (ForallOrdPairs separated) (sheets st)
  /\ ForallOrdPairs separated (current_sheet st)
  /\ Forall (in_shelf st) (current_sheet st).

(** No closed sheet is empty, and neither is the open one. *)
Definition nonempty_inv (st : PackingState) : Prop :=
  Forall (fun s : Sheet => s <> []) (sheets st) /\ current_sheet st <> [].

(** Two instances that differ in depth at most. *)
Definition same_sides (p1 p2 : PanelInstance) : Prop :=
  width p1 = width p2 /\ height p1 = height p2.

(** Two loop states that differ in the stored depths at most. *)
Definition same_geometry (st1 st2 : PackingState) : Prop :=
  map (map geometry) (sheets st1) = map (map geometry) (sheets st2)
  /\ map geometry (current_sheet st1) = map geometry (current_sheet st2)
  /\ x_cursor st1 = x_cursor st2
  /\ y_cursor st1 = y_cursor st2
  /\ row_height st1 = row_height st2.



(** ** Predicates of the layout *)

Definition at_origin (q : PlacedPanel) : Prop := pos_x q = 0 /\ pos_y q = 0.

(** [q'] is placed right after [q] on a sheet: against its right side in
    the same row, or at the start of a row below it. *)
Definition next_to (q q' : PlacedPanel) : Prop :=
  (pos_x q' = pos_x q + placed_width q /\ pos_y q' = pos_y q)
  \/ (pos_x q' = 0 /\ pos_y q + placed_height q <= pos_y q').

(** A sheet read from its last placement back to its first: the first one
    lies at the origin, every other one follows its predecessor and was
    tested against the sheet height. *)
Fixpoint laid_rev (H : Z) (r : list PlacedPanel) : Prop :=
  match r with
  | [] => True
  | q' :: r' =>
      match r' with
      | [] => at_origin q'
      | q :: _ => next_to q q' /\ pos_y q' + placed_height q' <= H
      end
      /\ laid_rev H r'
  end.

(** Between two iterations the cursor stands at the top right corner of the
    last placement of the open sheet. *)
Definition cursor_inv (st : PackingState) : Prop :=
  match rev (current_sheet st) with
  | [] => x_cursor st = 0 /\ y_cursor st = 0 /\ row_height st = 0
  | q :: _ =>
      pos_x q + placed_width q = x_cursor st
      /\ pos_y q = y_cursor st
      /\ placed_height q <= row_height st
  end.

Definition lay_inv (H : Z) (st : PackingState) : Prop :=
  Forall (fun s => laid_rev H (rev s)) (sheets st)
  /\ laid_rev H (rev (current_sheet st))
  /\ cursor_inv st.

(** What the tests of the loop establish for a placement, whatever its
    place on the sheet: away from the left edge it was tested against both
    sides of the sheet, and it is rotated only where it did not pass the
    test as it is. *)
Definition checked (W H : Z) (q : PlacedPanel) : Prop :=
  (pos_x q <> 0 ->
   pos_x q + placed_width q <= W /\ pos_y q + placed_height q <= H)
  /\ (rotated q = true ->
      ~ (pos_x q + placed_height q <= W /\ pos_y q + placed_width q <= H)).

(** A sheet opened by the [if not placed:] block. *)
Definition opened_fresh (s : Sheet) : Prop :=
  match s with
  | [] => False
  | q :: _ => at_origin q /\ rotated q = false
  end.

Definition fresh_inv (st : PackingState) : Prop :=
  Forall opened_fresh (tl (sheets st ++ [current_sheet st])).

(** The positions are not negative. *)
Definition first_quadrant (q : PlacedPanel) : Prop :=
  0 <= pos_x q /\ 0 <= pos_y q.

Definition quadrant_inv (st : PackingState) : Prop :=
  0 <= x_cursor st /\ 0 <= y_cursor st /\ 0 <= row_height st
  /\ Forall first_quadrant (placements st).

(** The result [r2] continues [r1]: the closed sheets of [r1] are kept, its
    last sheet has grown at the end, and further sheets may follow. *)
Definition continues (r1 r2 : PackingResult) : Prop :=
  exists qs more,
    r2 = removelast r1 ++ (last r1 [] ++ qs) :: more.

Definition state_result (st : PackingState) : PackingResult :=
  sheets st ++ [current_sheet st].

(** ** Examples from the specification *)


(** A panel that fits only when turned is turned in a row, but starts a new
    sheet as it is: the third one sticks out of its sheet. *)
Example new_sheet_is_not_turned :
  arrange_panels 2440 1220 [mkRequest 600 2000 18 3]
  = [[mkPlaced 0 0 2000 600 18 true; mkPlaced 0 600 2000 600 18 true];
     [mkPlaced 0 0 600 2000 18 false]].
Proof. reflexivity. Qed.

(** A new row is started without a look at the sheet width. *)
Example new_row_ignores_width :
  arrange_panels 1220 2440 [mkRequest 1000 1000 18 1; mkRequest 2000 400 18 1]
  = [[mkPlaced 0 0 1000 1000 18 false; mkPlaced 0 1000 2000 400 18 false]].
Proof. reflexivity. Qed.

(** ** The sort is a stable sort *)

Section StableSortFacts.
Context {A : Type} (key : A -> Z).

Lemma insert_desc_perm (a : A) (l : list A) :
  Permutation (a :: l) (insert_desc key a l).
Proof.
  induction l as [|b l IH]; simpl.
  - apply Permutation_refl.
  - destruct (key a <? key b).
    + eapply perm_trans; [apply perm_swap|].
      apply perm_skip, IH.
    + apply Permutation_refl.
Qed.

Lemma sort_desc_perm (l : list A) : Permutation l (sort_desc key l).
Proof.
  induction l as [|a l IH]; simpl.
  - apply perm_nil.
  - eapply perm_trans; [apply perm_skip, IH|].
    apply insert_desc_perm.
Qed.

Lemma insert_desc_sorted (a : A) (l : list A) :
  StronglySorted (key_ge key) l -> StronglySorted (key_ge key) (insert_desc key a l).
Proof.
  induction 1 as [|b l Hs IH Hb]; simpl.
  - constructor; constructor.
  - destruct (key a <? key b) eqn:E.
    + apply Z.ltb_lt in E.
      constructor; [exact IH|].
      eapply Permutation_Forall; [apply insert_desc_perm|].
      constructor; [unfold key_ge; lia | exact Hb].
    + apply Z.ltb_ge in E.
      constructor; [constructor; assumption|].
      constructor; [exact E|].
      eapply Forall_impl; [|exact Hb].
      unfold key_ge; intros c Hc; lia.
Qed.

Lemma sort_desc_sorted (l : list A) : StronglySorted (key_ge key) (sort_desc key l).
Proof.
  induction l as [|a l IH]; simpl.
  - constructor.
  - apply insert_desc_sorted, IH.
Qed.

(** Stability: the elements of any one key come out in the order they went
    in. *)
Lemma insert_desc_filter (k : Z) (a : A) (l : list A) :
  filter (fun x => key x =? k) (insert_desc key a l)
  = filter (fun x => key x =? k) (a :: l).
Proof.
  induction l as [|b l IH]; simpl; [reflexivity|].
  destruct (key a <? key b) eqn:E; [|reflexivity].
  apply Z.ltb_lt in E. simpl in *. rewrite IH.
  destruct (key a =? k) eqn:Ea, (key b =? k) eqn:Eb; try reflexivity.
  apply Z.eqb_eq in Ea, Eb. lia.
Qed.

Lemma sort_desc_stable (k : Z) (l : list A) :
  filter (fun x => key x =? k) (sort_desc key l)
  = filter (fun x => key x =? k) l.
Proof.
  induction l as [|a l IH]; simpl; [reflexivity|].
  rewrite insert_desc_filter. simpl. rewrite IH. reflexivity.
Qed.

Lemma sort_desc_length (l : list A) : length (sort_desc key l) = length l.
Proof. symmetry. apply Permutation_length, sort_desc_perm. Qed.

Lemma sort_desc_Forall (P : A -> Prop) (l : list A) :
  Forall P l -> Forall P (sort_desc key l).
Proof. apply Permutation_Forall, sort_desc_perm. Qed.
End StableSortFacts.

(** ** Every iteration appends one placement *)

Lemma source_instance_put_false (p : PanelInstance) (x y : Z) :
  source_instance (mkPlaced x y (width p) (height p) (depth p) false) = p.
Proof. destruct p; reflexivity. Qed.

Lemma source_instance_put_true (p : PanelInstance) (x y : Z) :
  source_instance (mkPlaced x y (height p) (width p) (depth p) true) = p.
Proof. destruct p; reflexivity. Qed.

Lemma place_panel_cases (W H : Z) (st : PackingState) (p : PanelInstance) :
  step_case W H st p (place_panel W H st p).
Proof.
  unfold place_panel, try_place.
  destruct ((x_cursor st + width p <=? W) && (y_cursor st + height p <=? H))
    eqn:E1.
  { apply andb_true_iff in E1 as [Ha Hb].
    apply Z.leb_le in Ha, Hb. simpl. now apply case_row. }
  destruct ((x_cursor st + height p <=? W) && (y_cursor st + width p <=? H))
    eqn:E2.
  { apply andb_true_iff in E2 as [Ha Hb].
    apply Z.leb_le in Ha, Hb. simpl. now apply case_row_rotated. }
  cbv zeta.
  destruct (y_cursor (new_row st) + height p <=? H) eqn:E3.
  { apply Z.leb_le in E3. simpl in *. now apply case_new_row. }
  destruct (y_cursor (new_row st) + width p <=? H) eqn:E4.
  { apply Z.leb_le in E4. simpl in *. now apply case_new_row_rotated. }
  simpl. apply case_new_sheet.
Qed.

Lemma placements_put (st : PackingState) (w h d : Z) (r : bool) :
  placements (put st w h d r)
  = placements st ++ [mkPlaced (x_cursor st) (y_cursor st) w h d r].
Proof. unfold placements; simpl. now rewrite app_assoc. Qed.

Lemma placements_new_sheet (st : PackingState) (p : PanelInstance) :
  placements (new_sheet st p)
  = placements st ++ [mkPlaced 0 0 (width p) (height p) (depth p) false].
Proof.
  unfold placements; simpl.
  rewrite concat_app; simpl. now rewrite app_nil_r.
Qed.

Lemma place_panel_appends (W H : Z) (st : PackingState) (p : PanelInstance) :
  exists q, placements (place_panel W H st p) = placements st ++ [q]
            /\ source_instance q = p.
Proof.
  destruct (place_panel_cases W H st p);
    rewrite ?placements_put, ?placements_new_sheet;
    eexists; (split; [reflexivity|]);
    auto using source_instance_put_false, source_instance_put_true.
Qed.

Lemma fold_place_panel_appends (W H : Z) (l : list PanelInstance) :
  forall st, exists qs,
    placements (fold_left (place_panel W H) l st) = placements st ++ qs
    /\ map source_instance qs = l.
Proof.
  induction l as [|p l IH]; intros st; simpl.
  - exists []. now rewrite app_nil_r.
  - destruct (place_panel_appends W H st p) as (q & Hq & Hs).
    destruct (IH (place_panel W H st p)) as (qs & Hqs & Hm).
    exists (q :: qs). rewrite Hqs, Hq, <- app_assoc. simpl.
    now rewrite Hs, Hm.
Qed.

Lemma concat_place_all (W H : Z) (l : list PanelInstance) :
  concat (place_all W H l)
  = placements (fold_left (place_panel W H) l initial_state).
Proof.
  unfold place_all, placements. rewrite concat_app. simpl.
  now rewrite app_nil_r.
Qed.

(** The placements of a result, sheet after sheet, are those of the sorted
    instances, one for one and in that order. *)
Lemma place_all_sources (W H : Z) (l : list PanelInstance) :
  map source_instance (concat (place_all W H l)) = l.
Proof.
  rewrite concat_place_all.
  destruct (fold_place_panel_appends W H l initial_state) as (qs & Hqs & Hm).
  now rewrite Hqs.
Qed.

Lemma pack_sources (W H : Z) (l : list PanelInstance) :
  map source_instance (concat (pack W H l)) = sort_desc area l.
Proof. apply place_all_sources. Qed.

Lemma source_instance_placed_from (p : PanelInstance) (q : PlacedPanel) :
  source_instance q = p -> placed_from p q.
Proof.
  intros <-. unfold placed_from, source_instance.
  destruct q as [x y w h d []]; simpl; repeat split; intros; congruence.
Qed.

Lemma sources_placed_from (l : list PanelInstance) :
  forall qs, map source_instance qs = l -> Forall2 placed_from l qs.
Proof.
  induction l as [|p l IH]; intros [|q qs] Hm; simpl in Hm;
    try discriminate; constructor.
  - apply source_instance_placed_from. congruence.
  - apply IH. congruence.
Qed.

Lemma placed_area_source (q : PlacedPanel) :
  placed_area q = area (source_instance q).
Proof.
  unfold placed_area, area, source_instance.
  destruct (rotated q); simpl; lia.
Qed.

Lemma StronglySorted_map_inv {A B : Type} (f : A -> B) (R : B -> B -> Prop)
    (l : list A) :
  StronglySorted R (map f l) -> StronglySorted (fun a b => R (f a) (f b)) l.
Proof.
  induction l as [|a l IH]; simpl; intros Hs; [constructor|].
  inversion Hs as [|? ? Hs' Hall]; subst. constructor; [auto|].
  rewrite Forall_forall in *. intros b Hb. apply Hall, in_map, Hb.
Qed.

Lemma expand_length (panel_list : list PanelRequest) :
  Forall (fun row => 0 <= quantity row) panel_list ->
  Z.of_nat (length (expand panel_list)) = sum_Z (map quantity panel_list).
Proof.
  induction 1 as [|row l Hq _ IH]; simpl; [reflexivity|].
  rewrite length_app, repeat_length, Nat2Z.inj_add, IH. lia.
Qed.

(** ** Empty input *)

(** C4, as stated, does not hold: for an empty request list the result has
    one sheet, not zero. *)
Lemma empty_input_not_zero_sheets :
  ~ (forall W H : Z, length (arrange_panels W H []) = 0%nat)
  /\ arrange_panels 2440 1220 [] = [[]].
Proof.
  split; [|reflexivity].
  intros Hc. specialize (Hc 2440 1220). discriminate Hc.
Qed.

(** C4, amended: packing an empty instance sequence, or an empty request
    list, returns exactly one sheet, and that sheet holds no panel. *)
Theorem empty_input_one_empty_sheet (W H : Z) :
  pack W H [] = [[]]
  /\ arrange_panels W H [] = [[]]
  /\ length (arrange_panels W H []) = 1%nat.
Proof. repeat split. Qed.

(** ** Conservation, order and rotation *)

(** C5: with quantities that are not negative, the expansion emits
    [sum(quantity)] instances, the sheets of the result hold that many
    placements in all, and the placements are made from the instances one for
    one: none is dropped and none is placed twice. *)
Theorem conservation (W H : Z) (panel_list : list PanelRequest) :
  Forall (fun row => 0 <= quantity row) panel_list ->
  Z.of_nat (length (expand panel_list)) = sum_Z (map quantity panel_list)
  /\ Z.of_nat (length (concat (arrange_panels W H panel_list)))
     = sum_Z (map quantity panel_list)
  /\ Permutation (map source_instance (concat (arrange_panels W H panel_list)))
                 (expand panel_list).
Proof.
  intros Hq. pose proof (pack_sources W H (expand panel_list)) as Hs.
  fold (arrange_panels W H panel_list) in Hs.
  split; [now apply expand_length|]. split.
  - rewrite <- (length_map source_instance), Hs, sort_desc_length.
    now apply expand_length.
  - rewrite Hs. apply Permutation_sym, sort_desc_perm.
Qed.

Lemma conservation_witness :
  Forall (fun row => 0 <= quantity row)
         [mkRequest 800 600 18 3; mkRequest 400 300 12 0]
  /\ Z.of_nat (length (concat (arrange_panels 2440 1220
                  [mkRequest 800 600 18 3; mkRequest 400 300 12 0]))) = 3.
Proof.
  assert (Hq : Forall (fun row => 0 <= quantity row)
                      [mkRequest 800 600 18 3; mkRequest 400 300 12 0]).
  { repeat constructor; simpl; lia. }
  split; [exact Hq|].
  exact (proj1 (proj2 (conservation 2440 1220 _ Hq))).
Defined.

(** C6: the placements, read sheet after sheet in the order they were made,
    are made from the instances sorted by [width * height], largest first,
    instances of one area staying in catalog order; so the areas of the
    placements never increase. *)
Theorem placement_order (W H : Z) (instances : list PanelInstance) :
  let sorted := sort_desc area instances in
  map source_instance (concat (pack W H instances)) = sorted
  /\ Permutation instances sorted
  /\ StronglySorted (fun p1 p2 => area p2 <= area p1) sorted
  /\ (forall k, filter (fun p => area p =? k) sorted
                = filter (fun p => area p =? k) instances)
  /\ StronglySorted (fun q1 q2 => placed_area q2 <= placed_area q1)
                    (concat (pack W H instances)).
Proof.
  intros sorted. pose proof (pack_sources W H instances) as Hs.
  pose proof (sort_desc_sorted area instances) as Hsorted.
  repeat split.
  - exact Hs.
  - apply sort_desc_perm.
  - exact Hsorted.
  - intros k. apply sort_desc_stable.
  - rewrite <- Hs in Hsorted. apply StronglySorted_map_inv in Hsorted.
    eapply StronglySorted_ind with (P := StronglySorted _);
      [constructor | | exact Hsorted].
    intros a l _ IH Hall. constructor; [exact IH|].
    eapply Forall_impl; [|exact Hall]. intros b Hb.
    unfold key_ge in Hb. now rewrite !placed_area_source.
Qed.

(** C7: every placement carries the sides of the instance it was made from:
    swapped when [rotated] is true, unchanged when it is false (and the
    depth unchanged in both cases). *)
Theorem rotation_validity (W H : Z) (panel_list : list PanelRequest) :
  Forall2 placed_from (sort_desc area (expand panel_list))
          (concat (arrange_panels W H panel_list)).
Proof. apply sources_placed_from, pack_sources. Qed.

(** ** Invariants of the loop *)

Lemma fold_place_invariant (W H : Z) (I : PackingState -> Prop)
    (Q : PanelInstance -> Prop) :
  (forall st p, I st -> Q p -> I (place_panel W H st p)) ->
  forall l st, Forall Q l -> I st -> I (fold_left (place_panel W H) l st).
Proof.
  intros Hstep l. induction l as [|p l IH]; intros st Hl Hst; simpl.
  - exact Hst.
  - inversion Hl; subst. apply IH; auto.
Qed.

(** *** Bounds *)

Lemma fits_both_ways_spec (W H : Z) (p : PanelInstance) :
  fits_both_ways W H p = true <->
  width p <= W /\ height p <= H /\ height p <= W /\ width p <= H.
Proof.
  unfold fits_both_ways, fits_unrotated, fits_rotated.
  rewrite !andb_true_iff, !Z.leb_le. tauto.
Qed.

Lemma bounds_inv_put (W H : Z) (st : PackingState) (w h d : Z) (r : bool) :
  bounds_inv W H st -> 0 <= w -> 0 <= h ->
  x_cursor st + w <= W -> y_cursor st + h <= H ->
  bounds_inv W H (put st w h d r).
Proof.
  intros (Hx & Hy & Hr & Hall) Hw Hh Hxw Hyh.
  unfold bounds_inv. rewrite placements_put. simpl.
  repeat split; try lia.
  apply Forall_app. split; [exact Hall|].
  constructor; [|constructor]. unfold in_bounds; simpl. lia.
Qed.

Lemma bounds_inv_new_row (W H : Z) (st : PackingState) :
  bounds_inv W H st -> bounds_inv W H (new_row st).
Proof.
  intros (Hx & Hy & Hr & Hall). unfold bounds_inv, placements in *; simpl.
  repeat split; try lia. exact Hall.
Qed.

Lemma bounds_inv_new_sheet (W H : Z) (st : PackingState) (p : PanelInstance) :
  bounds_inv W H st -> 0 <= width p <= W -> 0 <= height p <= H ->
  bounds_inv W H (new_sheet st p).
Proof.
  intros (Hx & Hy & Hr & Hall) Hw Hh.
  unfold bounds_inv. rewrite placements_new_sheet. simpl.
  repeat split; try lia.
  apply Forall_app. split; [exact Hall|].
  constructor; [|constructor]. unfold in_bounds; simpl. lia.
Qed.

Lemma bounds_inv_step (W H : Z) (st : PackingState) (p : PanelInstance) :
  bounds_inv W H st -> fits_well W H p -> bounds_inv W H (place_panel W H st p).
Proof.
  intros Hinv ((Hw & Hh) & Hfit). apply fits_both_ways_spec in Hfit.
  destruct (place_panel_cases W H st p).
  - apply bounds_inv_put; auto.
  - apply bounds_inv_put; auto.
  - apply bounds_inv_put; auto using bounds_inv_new_row; simpl; lia.
  - apply bounds_inv_put; auto using bounds_inv_new_row; simpl; lia.
  - apply bounds_inv_new_sheet; auto using bounds_inv_new_row; lia.
Qed.

Lemma bounds_inv_initial (W H : Z) : bounds_inv W H initial_state.
Proof. unfold bounds_inv, placements; simpl. repeat split; try lia. constructor. Qed.

(** C1, as stated, does not hold: nothing keeps a panel wider than the
    sheet from being placed. *)
Lemma oversize_panel_out_of_bounds :
  ~ (forall (W H : Z) (panel_list : list PanelRequest),
        0 < W -> 0 < H ->
        forall s q, In s (arrange_panels W H panel_list) -> In q s ->
                    in_bounds W H q)
  /\ arrange_panels 2440 1220 [mkRequest 3000 500 18 1]
     = [[mkPlaced 0 0 3000 500 18 false]].
Proof.
  split; [|reflexivity]. intros Hc.
  assert (Hb : in_bounds 2440 1220 (mkPlaced 0 0 3000 500 18 false)).
  { apply (Hc 2440 1220 [mkRequest 3000 500 18 1])
      with (s := [mkPlaced 0 0 3000 500 18 false]); try lia.
    - left. reflexivity.
    - left. reflexivity. }
  unfold in_bounds in Hb. simpl in Hb. lia.
Qed.

(** C1, amended: when every instance has sides that are not negative and
    fits the sheet in both orientations, every placement on every sheet of
    the result lies within the sheet. *)
Theorem bounds_when_fitting_both_ways (W H : Z)
    (panel_list : list PanelRequest) :
  Forall (fits_well W H) (expand panel_list) ->
  forall s q, In s (arrange_panels W H panel_list) -> In q s ->
              0 <= pos_x q /\ 0 <= pos_y q
              /\ pos_x q + placed_width q <= W
              /\ pos_y q + placed_height q <= H.
Proof.
  intros Hfit s q Hs Hq.
  assert (Hinv : bounds_inv W H
            (fold_left (place_panel W H) (sort_desc area (expand panel_list))
                       initial_state)).
  { apply fold_place_invariant with (Q := fits_well W H).
    - apply bounds_inv_step.
    - now apply sort_desc_Forall.
    - apply bounds_inv_initial. }
  destruct Hinv as (_ & _ & _ & Hall).
  rewrite <- concat_place_all in Hall.
  rewrite Forall_forall in Hall. apply Hall.
  apply in_concat. exists s. split; assumption.
Qed.

Lemma bounds_when_fitting_both_ways_witness :
  Forall (fits_well 2440 1220) (expand [mkRequest 800 600 18 3])
  /\ 1600 + 800 <= 2440 /\ 0 + 600 <= 1220.
Proof.
  assert (Hfit : Forall (fits_well 2440 1220) (expand [mkRequest 800 600 18 3])).
  { repeat constructor; simpl; lia. }
  split; [exact Hfit|].
  apply (bounds_when_fitting_both_ways 2440 1220 [mkRequest 800 600 18 3] Hfit
           [mkPlaced 0 0 800 600 18 false; mkPlaced 800 0 800 600 18 false;
            mkPlaced 1600 0 800 600 18 false]
           (mkPlaced 1600 0 800 600 18 false)).
  - left. reflexivity.
  - right. right. left. reflexivity.
Defined.

(** *** No overlap *)

Lemma ForallOrdPairs_snoc {A : Type} (R : A -> A -> Prop) (l : list A) (a : A) :
  ForallOrdPairs R l -> Forall (fun b => R b a) l ->
  ForallOrdPairs R (l ++ [a]).
Proof.
  induction 1 as [|b l Hb Hl IH]; intros Hall; simpl.
  - constructor; constructor.
  - inversion Hall; subst. constructor; [|auto].
    apply Forall_app. split; [exact Hb|]. constructor; [assumption|constructor].
Qed.

Lemma ForallOrdPairs_nth {A : Type} (R : A -> A -> Prop) (l : list A) :
  ForallOrdPairs R l ->
  forall i j a b, (i < j)%nat ->
    nth_error l i = Some a -> nth_error l j = Some b -> R a b.
Proof.
  induction 1 as [|c l Hc Hl IH]; intros i j a b Hij Ha Hb.
  - destruct i; discriminate.
  - destruct j as [|j]; [lia|]. simpl in Hb. destruct i as [|i]; simpl in Ha.
    + injection Ha as <-. rewrite Forall_forall in Hc.
      eapply Hc, nth_error_In, Hb.
    + apply (IH i j); auto. lia.
Qed.

Lemma separated_sym (q1 q2 : PlacedPanel) : separated q1 q2 -> separated q2 q1.
Proof. unfold separated. tauto. Qed.

Lemma separated_no_overlap (q1 q2 : PlacedPanel) :
  separated q1 q2 -> ~ overlap q1 q2.
Proof.
  unfold separated, overlap, covers. intros Hs (a & b & H1 & H2). lia.
Qed.

(** For rectangles with positive sides the two notions agree. *)
Lemma no_overlap_separated (q1 q2 : PlacedPanel) :
  0 < placed_width q1 -> 0 < placed_height q1 ->
  0 < placed_width q2 -> 0 < placed_height q2 ->
  ~ overlap q1 q2 -> separated q1 q2.
Proof.
  unfold separated, overlap, covers. intros Hw1 Hh1 Hw2 Hh2 Hno.
  destruct (Z_le_gt_dec (pos_x q1 + placed_width q1) (pos_x q2)); [lia|].
  destruct (Z_le_gt_dec (pos_x q2 + placed_width q2) (pos_x q1)); [lia|].
  destruct (Z_le_gt_dec (pos_y q1 + placed_height q1) (pos_y q2)); [lia|].
  destruct (Z_le_gt_dec (pos_y q2 + placed_height q2) (pos_y q1)); [lia|].
  exfalso. apply Hno.
  exists (Z.max (pos_x q1) (pos_x q2)), (Z.max (pos_y q1) (pos_y q2)). lia.
Qed.

Lemma shelf_inv_put (st : PackingState) (w h d : Z) (r : bool) :
  shelf_inv st -> 0 <= w -> 0 <= h -> shelf_inv (put st w h d r).
Proof.
  intros (Hr & Hsheets & Hpairs & Hshelf) Hw Hh.
  unfold shelf_inv; simpl. repeat split.
  - lia.
  - exact Hsheets.
  - apply ForallOrdPairs_snoc; [exact Hpairs|].
    eapply Forall_impl; [|exact Hshelf].
    intros q Hq. unfold in_shelf in Hq. unfold separated; simpl. lia.
  - apply Forall_app. split.
    + eapply Forall_impl; [|exact Hshelf].
      intros q Hq. unfold in_shelf in *; simpl. lia.
    + constructor; [|constructor]. unfold in_shelf; simpl. lia.
Qed.

Lemma shelf_inv_new_row (st : PackingState) :
  shelf_inv st -> shelf_inv (new_row st).
Proof.
  intros (Hr & Hsheets & Hpairs & Hshelf).
  unfold shelf_inv; simpl. repeat split; auto; try lia.
  eapply Forall_impl; [|exact Hshelf].
  intros q Hq. unfold in_shelf in *; simpl. lia.
Qed.

Lemma shelf_inv_new_sheet (st : PackingState) (p : PanelInstance) :
  shelf_inv st -> 0 <= height p -> shelf_inv (new_sheet st p).
Proof.
  intros (Hr & Hsheets & Hpairs & Hshelf) Hh.
  unfold shelf_inv; simpl. repeat split; auto.
  - apply Forall_app. split; [exact Hsheets|]. constructor; [exact Hpairs|constructor].
  - constructor; constructor.
  - constructor; [|constructor]. unfold in_shelf; simpl. lia.
Qed.

Lemma shelf_inv_step (W H : Z) (st : PackingState) (p : PanelInstance) :
  shelf_inv st -> nonneg_dims p -> shelf_inv (place_panel W H st p).
Proof.
  intros Hinv (Hw & Hh).
  destruct (place_panel_cases W H st p);
    auto using shelf_inv_put, shelf_inv_new_row, shelf_inv_new_sheet.
Qed.

Lemma shelf_inv_initial : shelf_inv initial_state.
Proof. unfold shelf_inv; simpl. repeat split; try lia; constructor. Qed.

Lemma positive_nonneg_dims (p : PanelInstance) : positive_dims p -> nonneg_dims p.
Proof. unfold positive_dims, nonneg_dims. lia. Qed.

Lemma place_all_separated (W H : Z) (l : list PanelInstance) :
  Forall nonneg_dims l ->
  Forall (ForallOrdPairs separated) (place_all W H l).
Proof.
  intros Hl.
  assert (Hinv : shelf_inv (fold_left (place_panel W H) l initial_state)).
  { apply fold_place_invariant with (Q := nonneg_dims);
      auto using shelf_inv_step, shelf_inv_initial. }
  destruct Hinv as (_ & Hsheets & Hcur & _).
  unfold place_all. apply Forall_app. split; [exact Hsheets|].
  constructor; [exact Hcur|constructor].
Qed.

(** C3: with all panel sides positive, two placements at different positions
    of one sheet have rectangles that meet in no area: one ends where the
    other begins, so no unit cell lies under both. *)
Theorem placements_do_not_overlap (W H : Z) (panel_list : list PanelRequest) :
  Forall positive_dims (expand panel_list) ->
  forall s, In s (arrange_panels W H panel_list) ->
  forall i j q1 q2, i <> j ->
    nth_error s i = Some q1 -> nth_error s j = Some q2 ->
    separated q1 q2 /\ ~ overlap q1 q2.
Proof.
  intros Hpos s Hs i j q1 q2 Hij H1 H2.
  assert (Hsep : separated q1 q2); [|split; [exact Hsep|]].
  2: now apply separated_no_overlap.
  assert (Hall : Forall (ForallOrdPairs separated)
                        (arrange_panels W H panel_list)).
  { apply place_all_separated, sort_desc_Forall.
    eapply Forall_impl; [|exact Hpos]. apply positive_nonneg_dims. }
  rewrite Forall_forall in Hall. specialize (Hall s Hs).
  destruct (Nat.lt_ge_cases i j) as [Hlt|Hge].
  - eapply ForallOrdPairs_nth; eauto.
  - apply separated_sym. eapply ForallOrdPairs_nth with (i := j) (j := i); eauto.
    lia.
Qed.

Lemma placements_do_not_overlap_witness :
  Forall positive_dims (expand [mkRequest 800 600 18 3])
  /\ ~ overlap (mkPlaced 0 0 800 600 18 false) (mkPlaced 800 0 800 600 18 false).
Proof.
  assert (Hpos : Forall positive_dims (expand [mkRequest 800 600 18 3])).
  { repeat constructor; simpl; lia. }
  split; [exact Hpos|].
  apply (placements_do_not_overlap 2440 1220 [mkRequest 800 600 18 3] Hpos
           [mkPlaced 0 0 800 600 18 false; mkPlaced 800 0 800 600 18 false;
            mkPlaced 1600 0 800 600 18 false]
           (or_introl eq_refl) 0%nat 1%nat).
  - discriminate.
  - reflexivity.
  - reflexivity.
Defined.

(** *** No empty sheet *)

Lemma snoc_not_nil {A : Type} (l : list A) (a : A) : l ++ [a] <> [].
Proof. destruct l; discriminate. Qed.

Lemma nonempty_inv_step (W H : Z) (st : PackingState) (p : PanelInstance) :
  nonempty_inv st -> nonempty_inv (place_panel W H st p).
Proof.
  intros (Hsheets & Hcur).
  destruct (place_panel_cases W H st p); unfold nonempty_inv; simpl;
    (split; [|try apply snoc_not_nil; try discriminate]); auto.
  apply Forall_app. split; [exact Hsheets|]. constructor; [exact Hcur|constructor].
Qed.

(** The first instance, when it fits the sheet one way or the other, goes
    on the first sheet; no sheet is closed before it. *)
Lemma first_panel_placed (W H : Z) (p : PanelInstance) :
  fits_sheet W H p = true -> nonempty_inv (place_panel W H initial_state p).
Proof.
  unfold fits_sheet, fits_unrotated, fits_rotated, place_panel, try_place.
  simpl. intros Hfit.
  destruct ((width p <=? W) && (height p <=? H)) eqn:E1; simpl.
  - split; [constructor|discriminate].
  - simpl in Hfit. rewrite Hfit. simpl. split; [constructor|discriminate].
Qed.

Lemma sort_desc_head_in {A : Type} (key : A -> Z) (l : list A) :
  l <> [] -> exists a l', sort_desc key l = a :: l' /\ In a l.
Proof.
  intros Hl. destruct (sort_desc key l) as [|a l'] eqn:E.
  - apply (f_equal (@length A)) in E. rewrite sort_desc_length in E.
    destruct l; [congruence|discriminate].
  - exists a, l'. split; [reflexivity|].
    eapply Permutation_in; [apply Permutation_sym, sort_desc_perm|].
    rewrite E. left. reflexivity.
Qed.

(** C10: a result always has a sheet; for an empty instance sequence it is
    one sheet holding no panel; for any other sequence whose instances each
    fit the sheet in at least one orientation, no sheet of the result is
    empty. *)
Theorem at_least_one_sheet (W H : Z) (panel_list : list PanelRequest) :
  (1 <= length (arrange_panels W H panel_list))%nat
  /\ (expand panel_list = [] -> arrange_panels W H panel_list = [[]])
  /\ (expand panel_list <> [] ->
      Forall (fun p => fits_sheet W H p = true) (expand panel_list) ->
      Forall (fun s : Sheet => s <> []) (arrange_panels W H panel_list)).
Proof.
  repeat split.
  - unfold arrange_panels, pack, place_all. rewrite length_app. simpl. lia.
  - unfold arrange_panels. intros ->. reflexivity.
  - intros Hne Hfit. unfold arrange_panels, pack, place_all.
    destruct (sort_desc_head_in area (expand panel_list) Hne)
      as (p & l' & -> & Hin).
    simpl.
    assert (Hinv : nonempty_inv
              (fold_left (place_panel W H) l'
                         (place_panel W H initial_state p))).
    { apply fold_place_invariant with (Q := fun _ => True).
      - intros st q Hst _. now apply nonempty_inv_step.
      - apply Forall_forall. trivial.
      - apply first_panel_placed. rewrite Forall_forall in Hfit. auto. }
    destruct Hinv as (Hsheets & Hcur).
    apply Forall_app. split; [exact Hsheets|]. constructor; [exact Hcur|constructor].
Qed.

Lemma at_least_one_sheet_witness :
  expand [mkRequest 600 2000 18 3] <> []
  /\ Forall (fun p => fits_sheet 2440 1220 p = true)
            (expand [mkRequest 600 2000 18 3])
  /\ Forall (fun s : Sheet => s <> [])
            (arrange_panels 2440 1220 [mkRequest 600 2000 18 3]).
Proof.
  assert (Hne : expand [mkRequest 600 2000 18 3] <> []) by discriminate.
  assert (Hfit : Forall (fun p => fits_sheet 2440 1220 p = true)
                        (expand [mkRequest 600 2000 18 3])).
  { repeat constructor. }
  split; [exact Hne|]. split; [exact Hfit|].
  exact (proj2 (proj2 (at_least_one_sheet 2440 1220 _)) Hne Hfit).
Defined.

(** *** Depth plays no part *)

Lemma insert_desc_same_sides (p1 p2 : PanelInstance)
    (l1 l2 : list PanelInstance) :
  same_sides p1 p2 -> Forall2 same_sides l1 l2 ->
  Forall2 same_sides (insert_desc area p1 l1) (insert_desc area p2 l2).
Proof.
  intros Hp. induction 1 as [|a1 a2 l1 l2 Ha Hl IH]; simpl.
  - constructor; [exact Hp|constructor].
  - assert (Ea : area a1 = area a2)
      by (unfold area; destruct Ha as [-> ->]; reflexivity).
    assert (Ep : area p1 = area p2)
      by (unfold area; destruct Hp as [-> ->]; reflexivity).
    rewrite Ea, Ep. destruct (area p2 <? area a2).
    + constructor; assumption.
    + constructor; [exact Hp|]. constructor; assumption.
Qed.

Lemma sort_desc_same_sides (l1 l2 : list PanelInstance) :
  Forall2 same_sides l1 l2 ->
  Forall2 same_sides (sort_desc area l1) (sort_desc area l2).
Proof.
  induction 1; simpl; [constructor|].
  now apply insert_desc_same_sides.
Qed.

Lemma put_same_geometry (st1 st2 : PackingState) (w h d1 d2 : Z) (r : bool) :
  same_geometry st1 st2 -> same_geometry (put st1 w h d1 r) (put st2 w h d2 r).
Proof.
  intros (Hs & Hc & Hx & Hy & Hr). unfold same_geometry; simpl.
  rewrite !map_app, Hs, Hc, Hx, Hy, Hr. repeat split.
Qed.

Lemma new_row_same_geometry (st1 st2 : PackingState) :
  same_geometry st1 st2 -> same_geometry (new_row st1) (new_row st2).
Proof.
  intros (Hs & Hc & Hx & Hy & Hr). unfold same_geometry; simpl.
  rewrite Hs, Hc, Hy, Hr. repeat split.
Qed.

Lemma new_sheet_same_geometry (st1 st2 : PackingState)
    (p1 p2 : PanelInstance) :
  same_geometry st1 st2 -> same_sides p1 p2 ->
  same_geometry (new_sheet st1 p1) (new_sheet st2 p2).
Proof.
  intros (Hs & Hc & Hx & Hy & Hr) (Hw & Hh). unfold same_geometry, new_sheet.
  cbn [sheets current_sheet x_cursor y_cursor row_height].
  rewrite !map_app. cbn [map]. unfold Sheet in *.
  rewrite Hs, Hc, Hw, Hh. repeat split.
Qed.

Lemma place_panel_same_geometry (W H : Z) (st1 st2 : PackingState)
    (p1 p2 : PanelInstance) :
  same_geometry st1 st2 -> same_sides p1 p2 ->
  same_geometry (place_panel W H st1 p1) (place_panel W H st2 p2).
Proof.
  intros Hst Hp. pose proof Hst as (_ & _ & Hx & Hy & Hr).
  pose proof Hp as (Hw & Hh).
  unfold place_panel, try_place. simpl. rewrite Hx, Hy, Hr, Hw, Hh.
  destruct ((x_cursor st2 + width p2 <=? W)
            && (y_cursor st2 + height p2 <=? H)); simpl.
  { now apply put_same_geometry. }
  destruct ((x_cursor st2 + height p2 <=? W)
            && (y_cursor st2 + width p2 <=? H)); simpl.
  { now apply put_same_geometry. }
  destruct (y_cursor st2 + row_height st2 + height p2 <=? H); simpl.
  { now apply put_same_geometry, new_row_same_geometry. }
  destruct (y_cursor st2 + row_height st2 + width p2 <=? H); simpl.
  { now apply put_same_geometry, new_row_same_geometry. }
  apply new_sheet_same_geometry; [now apply new_row_same_geometry|exact Hp].
Qed.

Lemma fold_place_same_geometry (W H : Z) (l1 l2 : list PanelInstance) :
  Forall2 same_sides l1 l2 ->
  forall st1 st2, same_geometry st1 st2 ->
    same_geometry (fold_left (place_panel W H) l1 st1)
                  (fold_left (place_panel W H) l2 st2).
Proof.
  induction 1 as [|p1 p2 l1 l2 Hp Hl IH]; intros st1 st2 Hst; simpl.
  - exact Hst.
  - apply IH. now apply place_panel_same_geometry.
Qed.

Lemma pack_depths (W H : Z) (l : list PanelInstance) :
  map placed_depth (concat (pack W H l)) = map depth (sort_desc area l).
Proof.
  rewrite <- (pack_sources W H l), map_map. apply map_ext.
  intros q. unfold source_instance. destruct (rotated q); reflexivity.
Qed.

(** C9: two runs on the same sheet whose instance sequences agree in the
    widths and heights, position by position, give the same number of
    sheets and, placement by placement, the same position, stored sides and
    rotation flag; the depths are only carried along. *)
Theorem depth_independence (W H : Z) (l1 l2 : list PanelInstance) :
  Forall2 same_sides l1 l2 ->
  length (pack W H l1) = length (pack W H l2)
  /\ map (map geometry) (pack W H l1) = map (map geometry) (pack W H l2)
  /\ map placed_depth (concat (pack W H l1)) = map depth (sort_desc area l1)
  /\ map placed_depth (concat (pack W H l2)) = map depth (sort_desc area l2).
Proof.
  intros Hl.
  assert (Hgeo : map (map geometry) (pack W H l1)
                 = map (map geometry) (pack W H l2)).
  { unfold pack, place_all.
    destruct (fold_place_same_geometry W H _ _ (sort_desc_same_sides _ _ Hl)
                initial_state initial_state) as (Hs & Hc & _).
    { repeat split. }
    rewrite !map_app. cbn [map]. unfold Sheet in *. now rewrite Hs, Hc. }
  repeat split; auto using pack_depths.
  rewrite <- (length_map (map geometry)), Hgeo. apply length_map.
Qed.

Lemma depth_independence_witness :
  Forall2 same_sides [mkInstance 800 600 18; mkInstance 1000 700 12]
                     [mkInstance 800 600 3; mkInstance 1000 700 40]
  /\ map (map geometry)
         (pack 2440 1220 [mkInstance 800 600 18; mkInstance 1000 700 12])
     = map (map geometry)
           (pack 2440 1220 [mkInstance 800 600 3; mkInstance 1000 700 40]).
Proof.
  assert (Hl : Forall2 same_sides
                 [mkInstance 800 600 18; mkInstance 1000 700 12]
                 [mkInstance 800 600 3; mkInstance 1000 700 40]).
  { repeat constructor. }
  split; [exact Hl|].
  exact (proj1 (proj2 (depth_independence 2440 1220 _ _ Hl))).
Defined.

(** ** No fit check *)

Lemma in_bounds_fits (W H : Z) (q : PlacedPanel) :
  in_bounds W H q -> fits_sheet W H (source_instance q) = true.
Proof.
  unfold in_bounds, fits_sheet, fits_unrotated, fits_rotated, source_instance.
  intros (Hx & Hy & Hw & Hh). apply orb_true_iff.
  destruct (rotated q); simpl; [right|left];
    apply andb_true_iff; split; apply Z.leb_le; lia.
Qed.

(** C2, as stated, does not hold: a panel 3000 wide on a 2440 by 1220 sheet
    is not rejected, the call returns a sheet on which it is placed. *)
Lemma oversize_panel_not_rejected :
  ~ (forall (W H : Z) (panel_list : list PanelRequest),
        (exists p, In p (expand panel_list) /\ fits_sheet W H p = false) ->
        exists o, In o (expand panel_list) /\ fits_sheet W H o = false
                  /\ run_arrange_panels W H panel_list
                     = PanelTooLargeForSheet o)
  /\ fits_sheet 2440 1220 (mkInstance 3000 500 18) = false
  /\ run_arrange_panels 2440 1220 [mkRequest 3000 500 18 1]
     = Returned [[mkPlaced 0 0 3000 500 18 false]].
Proof.
  split; [|split; reflexivity]. intros Hc.
  destruct (Hc 2440 1220 [mkRequest 3000 500 18 1]) as (o & _ & _ & Hrun).
  - exists (mkInstance 3000 500 18). split; [left|]; reflexivity.
  - discriminate Hrun.
Qed.

(** C2, amended: the engine rejects nothing.  When an instance fits the
    sheet in neither orientation the call still returns a result, that
    instance is placed on one of its sheets, and its placement does not lie
    within the sheet. *)
Theorem oversize_panel_is_placed (W H : Z) (panel_list : list PanelRequest)
    (p : PanelInstance) :
  In p (expand panel_list) -> fits_sheet W H p = false ->
  exists result q,
    run_arrange_panels W H panel_list = Returned result
    /\ In q (concat result) /\ source_instance q = p
    /\ ~ in_bounds W H q.
Proof.
  intros Hin Hfit. exists (arrange_panels W H panel_list).
  assert (Hp : In p (map source_instance
                         (concat (arrange_panels W H panel_list)))).
  { unfold arrange_panels. rewrite pack_sources.
    eapply Permutation_in; [apply sort_desc_perm|exact Hin]. }
  apply in_map_iff in Hp as (q & Hq & Hqin).
  exists q. repeat split; auto.
  intros Hb. apply in_bounds_fits in Hb. congruence.
Qed.

Lemma oversize_panel_is_placed_witness :
  In (mkInstance 3000 500 18) (expand [mkRequest 3000 500 18 1])
  /\ fits_sheet 2440 1220 (mkInstance 3000 500 18) = false
  /\ exists result q,
       run_arrange_panels 2440 1220 [mkRequest 3000 500 18 1] = Returned result
       /\ In q (concat result) /\ source_instance q = mkInstance 3000 500 18
       /\ ~ in_bounds 2440 1220 q.
Proof.
  assert (Hin : In (mkInstance 3000 500 18) (expand [mkRequest 3000 500 18 1])).
  { left. reflexivity. }
  split; [exact Hin|]. split; [reflexivity|].
  exact (oversize_panel_is_placed 2440 1220 _ _ Hin eq_refl).
Defined.

(** ** Utilization *)


Lemma sum_Z_perm (l1 l2 : list Z) : Permutation l1 l2 -> sum_Z l1 = sum_Z l2.
Proof. induction 1; simpl; lia. Qed.





















(** * Further properties of the program *)

(** ** The branches of the loop body, with the tests that failed *)

Lemma place_panel_branches (W H : Z) (st : PackingState) (p : PanelInstance) :
  let A := x_cursor st + width p <= W /\ y_cursor st + height p <= H in
  let B := x_cursor st + height p <= W /\ y_cursor st + width p <= H in
  let C := y_cursor st + row_height st + height p <= H in
  let D := y_cursor st + row_height st + width p <= H in
  (A /\ place_panel W H st p = put st (width p) (height p) (depth p) false)
  \/ (~ A /\ B
      /\ place_panel W H st p = put st (height p) (width p) (depth p) true)
  \/ (~ A /\ ~ B /\ C
      /\ place_panel W H st p
         = put (new_row st) (width p) (height p) (depth p) false)
  \/ (~ A /\ ~ B /\ ~ C /\ D
      /\ place_panel W H st p
         = put (new_row st) (height p) (width p) (depth p) true)
  \/ (~ A /\ ~ B /\ ~ C /\ ~ D
      /\ place_panel W H st p = new_sheet (new_row st) p).
Proof.
  intros A B C D. unfold place_panel, try_place.
  destruct ((x_cursor st + width p <=? W) && (y_cursor st + height p <=? H))
    eqn:E1.
  { left. apply andb_true_iff in E1 as [Ha Hb]. apply Z.leb_le in Ha, Hb.
    split; [split; assumption | reflexivity]. }
  assert (HA : ~ A).
  { intros [Ha Hb]. apply Z.leb_le in Ha, Hb. rewrite Ha, Hb in E1.
    discriminate. }
  right.
  destruct ((x_cursor st + height p <=? W) && (y_cursor st + width p <=? H))
    eqn:E2.
  { left. apply andb_true_iff in E2 as [Ha Hb]. apply Z.leb_le in Ha, Hb.
    repeat split; assumption. }
  assert (HB : ~ B).
  { intros [Ha Hb]. apply Z.leb_le in Ha, Hb. rewrite Ha, Hb in E2.
    discriminate. }
  right. cbv zeta. cbn [new_row y_cursor].
  destruct (y_cursor st + row_height st + height p <=? H) eqn:E3.
  { left. apply Z.leb_le in E3. repeat split; assumption. }
  apply Z.leb_gt in E3. right.
  destruct (y_cursor st + row_height st + width p <=? H) eqn:E4.
  { left. apply Z.leb_le in E4. unfold C. repeat split; auto; lia. }
  apply Z.leb_gt in E4. right. unfold C, D. repeat split; auto; lia.
Qed.

(** ** How a sheet is laid out *)

Lemma laid_rev_suffix (H : Z) (a b : list PlacedPanel) :
  laid_rev H (a ++ b) -> laid_rev H b.
Proof.
  induction a as [|x a IH]; simpl; [trivial|]. intros [_ Hl]. exact (IH Hl).
Qed.

Lemma laid_rev_first (H : Z) (q : PlacedPanel) (l : list PlacedPanel) :
  laid_rev H (rev (q :: l)) -> at_origin q.
Proof.
  simpl. intros Hl. apply laid_rev_suffix in Hl. simpl in Hl. tauto.
Qed.

Lemma laid_rev_consecutive (H : Z) (l1 l2 : list PlacedPanel)
    (q q' : PlacedPanel) :
  laid_rev H (rev (l1 ++ q :: q' :: l2)) ->
  next_to q q' /\ pos_y q' + placed_height q' <= H.
Proof.
  rewrite rev_app_distr. simpl. rewrite <- !app_assoc. simpl.
  intros Hl. apply laid_rev_suffix in Hl. simpl in Hl. tauto.
Qed.

Lemma lay_inv_put (H : Z) (st : PackingState) (w h d : Z) (r : bool) :
  lay_inv H st -> y_cursor st + h <= H -> lay_inv H (put st w h d r).
Proof.
  intros (Hsheets & Hcur & Hc) Hy. unfold lay_inv, cursor_inv in *. simpl.
  rewrite rev_unit. simpl. repeat split; auto; try lia.
  destruct (rev (current_sheet st)) as [|q r'].
  - unfold at_origin; simpl. lia.
  - split; [|exact Hy]. left. simpl. lia.
Qed.

Lemma lay_inv_put_new_row (H : Z) (st : PackingState) (w h d : Z) (r : bool) :
  lay_inv H st -> y_cursor st + row_height st + h <= H ->
  lay_inv H (put (new_row st) w h d r).
Proof.
  intros (Hsheets & Hcur & Hc) Hy. unfold lay_inv, cursor_inv in *. simpl.
  rewrite rev_unit. simpl. repeat split; auto; try lia.
  destruct (rev (current_sheet st)) as [|q r'].
  - unfold at_origin; simpl. lia.
  - split; [|exact Hy]. right. simpl. lia.
Qed.

Lemma lay_inv_new_sheet (H : Z) (st : PackingState) (p : PanelInstance) :
  lay_inv H st -> lay_inv H (new_sheet (new_row st) p).
Proof.
  intros (Hsheets & Hcur & Hc). unfold lay_inv, cursor_inv, at_origin. simpl.
  repeat split; auto; try lia.
  apply Forall_app. split; [exact Hsheets|]. constructor; [exact Hcur|constructor].
Qed.

Lemma lay_inv_step (W H : Z) (st : PackingState) (p : PanelInstance) :
  lay_inv H st -> lay_inv H (place_panel W H st p).
Proof.
  intros Hinv.
  destruct (place_panel_cases W H st p);
    auto using lay_inv_put, lay_inv_put_new_row, lay_inv_new_sheet.
Qed.

Lemma lay_inv_initial (H : Z) : lay_inv H initial_state.
Proof. unfold lay_inv, cursor_inv; simpl. repeat split. constructor. Qed.

Lemma place_all_laid (W H : Z) (l : list PanelInstance) :
  Forall (fun s => laid_rev H (rev s)) (place_all W H l).
Proof.
  assert (Hinv : lay_inv H (fold_left (place_panel W H) l initial_state)).
  { apply fold_place_invariant with (Q := fun _ => True).
    - intros st p Hst _. now apply lay_inv_step.
    - apply Forall_forall. trivial.
    - apply lay_inv_initial. }
  destruct Hinv as (Hsheets & Hcur & _).
  unfold place_all. apply Forall_app. split; [exact Hsheets|].
  constructor; [exact Hcur|constructor].
Qed.

Lemma checked_step (W H : Z) (st : PackingState) (p : PanelInstance) :
  Forall (checked W H) (placements st) ->
  Forall (checked W H) (placements (place_panel W H st p)).
Proof.
  intros Hall.
  destruct (place_panel_branches W H st p)
    as [(HA & ->)|[(HA & HB & ->)|[(HA & HB & HC & ->)
       |[(HA & HB & HC & HD & ->)|(HA & HB & HC & HD & ->)]]]];
    rewrite ?placements_put, ?placements_new_sheet;
    apply Forall_app; (split; [exact Hall|]);
    (constructor; [|constructor]); unfold checked; simpl;
    (split; [intros Hx | intros Hr]);
    try discriminate; try contradiction; try lia; try tauto.
Qed.

Lemma place_all_checked (W H : Z) (l : list PanelInstance) :
  Forall (checked W H) (concat (place_all W H l)).
Proof.
  rewrite concat_place_all.
  apply (fold_place_invariant W H
           (fun st => Forall (checked W H) (placements st)) (fun _ => True)).
  - intros st p Hst _. now apply checked_step.
  - apply Forall_forall. trivial.
  - constructor.
Qed.

(** X1: on every sheet of a result the first placement lies at the
    origin. *)
Theorem first_placement_at_origin (W H : Z) (panel_list : list PanelRequest)
    (s : Sheet) (q : PlacedPanel) (l : list PlacedPanel) :
  In s (arrange_panels W H panel_list) -> s = q :: l ->
  pos_x q = 0 /\ pos_y q = 0.
Proof.
  intros Hs ->.
  pose proof (place_all_laid W H (sort_desc area (expand panel_list))) as Hl.
  rewrite Forall_forall in Hl. apply Hl in Hs.
  now apply laid_rev_first in Hs.
Qed.

Lemma first_placement_at_origin_witness :
  In [mkPlaced 0 0 600 2000 18 false]
     (arrange_panels 2440 1220 [mkRequest 600 2000 18 3])
  /\ pos_x (mkPlaced 0 0 600 2000 18 false) = 0.
Proof.
  assert (Hs : In [mkPlaced 0 0 600 2000 18 false]
                  (arrange_panels 2440 1220 [mkRequest 600 2000 18 3])).
  { right. left. reflexivity. }
  split; [exact Hs|].
  exact (proj1 (first_placement_at_origin 2440 1220 _ _ _ _ Hs eq_refl)).
Defined.

(** X2: of two placements that follow one another on a sheet, the second
    lies against the right side of the first, in the same row, or starts a
    row at the left edge, at or below the lower side of the first. *)
Theorem consecutive_placements (W H : Z) (panel_list : list PanelRequest)
    (s : Sheet) (l1 l2 : list PlacedPanel) (q q' : PlacedPanel) :
  In s (arrange_panels W H panel_list) -> s = l1 ++ q :: q' :: l2 ->
  (pos_x q' = pos_x q + placed_width q /\ pos_y q' = pos_y q)
  \/ (pos_x q' = 0 /\ pos_y q + placed_height q <= pos_y q').
Proof.
  intros Hs ->.
  pose proof (place_all_laid W H (sort_desc area (expand panel_list))) as Hl.
  rewrite Forall_forall in Hl. apply Hl in Hs.
  now apply laid_rev_consecutive in Hs.
Qed.

Lemma consecutive_placements_witness :
  In [mkPlaced 0 0 1000 1000 18 false; mkPlaced 0 1000 2000 400 18 false]
     (arrange_panels 1220 2440
        [mkRequest 1000 1000 18 1; mkRequest 2000 400 18 1])
  /\ ((0 = 0 + 1000 /\ 1000 = 0) \/ (0 = 0 /\ 0 + 1000 <= 1000)).
Proof.
  assert (Hs : In [mkPlaced 0 0 1000 1000 18 false;
                   mkPlaced 0 1000 2000 400 18 false]
                  (arrange_panels 1220 2440
                     [mkRequest 1000 1000 18 1; mkRequest 2000 400 18 1])).
  { left. reflexivity. }
  split; [exact Hs|].
  exact (consecutive_placements 1220 2440 _ _ [] [] _ _ Hs eq_refl).
Defined.

(** X3: a placement can stick out of the sheet only in two ways.  To the
    right only when it starts a row: away from the left edge it lies within
    the sheet.  Downwards only when it is the first of its sheet: every
    later one ends above the lower edge. *)
Theorem where_overflow_can_occur (W H : Z) (panel_list : list PanelRequest)
    (s : Sheet) (l1 l2 : list PlacedPanel) (q : PlacedPanel) :
  In s (arrange_panels W H panel_list) -> s = l1 ++ q :: l2 ->
  (pos_x q <> 0 ->
   pos_x q + placed_width q <= W /\ pos_y q + placed_height q <= H)
  /\ (l1 <> [] -> pos_y q + placed_height q <= H).
Proof.
  intros Hs Heq. split.
  - pose proof (place_all_checked W H (sort_desc area (expand panel_list)))
      as Hc.
    rewrite Forall_forall in Hc. apply Hc, in_concat.
    exists s. split; [exact Hs|]. rewrite Heq. apply in_elt.
  - intros Hne.
    pose proof (place_all_laid W H (sort_desc area (expand panel_list))) as Hl.
    rewrite Forall_forall in Hl. apply Hl in Hs.
    destruct (exists_last Hne) as (l0 & q0 & ->).
    rewrite Heq, <- app_assoc in Hs. simpl in Hs.
    now apply laid_rev_consecutive in Hs.
Qed.

Lemma where_overflow_can_occur_witness :
  In [mkPlaced 0 0 800 600 18 false; mkPlaced 800 0 800 600 18 false;
      mkPlaced 1600 0 800 600 18 false]
     (arrange_panels 2440 1220 [mkRequest 800 600 18 3])
  /\ 800 + 800 <= 2440 /\ 0 + 600 <= 1220.
Proof.
  assert (Hs : In [mkPlaced 0 0 800 600 18 false;
                   mkPlaced 800 0 800 600 18 false;
                   mkPlaced 1600 0 800 600 18 false]
                  (arrange_panels 2440 1220 [mkRequest 800 600 18 3])).
  { left. reflexivity. }
  split; [exact Hs|].
  apply (proj1 (where_overflow_can_occur 2440 1220 _ _
                  [mkPlaced 0 0 800 600 18 false]
                  [mkPlaced 1600 0 800 600 18 false]
                  (mkPlaced 800 0 800 600 18 false) Hs eq_refl)).
  discriminate.
Defined.

(** X4: a panel is turned only where it does not fit as it is: at the
    position of a rotated placement, the panel with its sides swapped back
    would not lie within the sheet. *)
Theorem rotated_only_when_needed (W H : Z) (panel_list : list PanelRequest)
    (s : Sheet) (q : PlacedPanel) :
  In s (arrange_panels W H panel_list) -> In q s -> rotated q = true ->
  ~ (pos_x q + placed_height q <= W /\ pos_y q + placed_width q <= H).
Proof.
  intros Hs Hq.
  pose proof (place_all_checked W H (sort_desc area (expand panel_list))) as Hc.
  rewrite Forall_forall in Hc. apply Hc, in_concat.
  exists s. split; assumption.
Qed.

Lemma rotated_only_when_needed_witness :
  In [mkPlaced 0 0 2000 600 18 true; mkPlaced 0 600 2000 600 18 true]
     (arrange_panels 2440 1220 [mkRequest 600 2000 18 3])
  /\ ~ (0 + 600 <= 2440 /\ 0 + 2000 <= 1220).
Proof.
  assert (Hs : In [mkPlaced 0 0 2000 600 18 true;
                   mkPlaced 0 600 2000 600 18 true]
                  (arrange_panels 2440 1220 [mkRequest 600 2000 18 3])).
  { left. reflexivity. }
  split; [exact Hs|].
  exact (rotated_only_when_needed 2440 1220 _ _
           (mkPlaced 0 0 2000 600 18 true) Hs (or_introl eq_refl) eq_refl).
Defined.

(** ** Sheets after the first *)

Lemma opened_fresh_snoc (s : Sheet) (q : PlacedPanel) :
  opened_fresh s -> opened_fresh (s ++ [q]).
Proof. destruct s; simpl; tauto. Qed.

Lemma fresh_inv_put (st : PackingState) (w h d : Z) (r : bool) :
  fresh_inv st -> fresh_inv (put st w h d r).
Proof.
  unfold fresh_inv. simpl. destruct (sheets st) as [|s0 ss]; simpl.
  - constructor.
  - intros Hall. apply Forall_app in Hall as [Hss Hcur].
    apply Forall_app. split; [exact Hss|].
    inversion Hcur; subst. constructor; [|constructor].
    now apply opened_fresh_snoc.
Qed.

Lemma fresh_inv_new_sheet (st : PackingState) (p : PanelInstance) :
  fresh_inv st -> fresh_inv (new_sheet (new_row st) p).
Proof.
  unfold fresh_inv. cbn [new_sheet new_row sheets current_sheet].
  assert (Hq : opened_fresh
                 [mkPlaced 0 0 (width p) (height p) (depth p) false]).
  { unfold opened_fresh, at_origin. simpl. tauto. }
  destruct (sheets st) as [|s0 ss]; simpl; intros Hall.
  - constructor; [exact Hq|constructor].
  - apply Forall_app. split; [exact Hall|]. constructor; [exact Hq|constructor].
Qed.

Lemma fresh_inv_step (W H : Z) (st : PackingState) (p : PanelInstance) :
  fresh_inv st -> fresh_inv (place_panel W H st p).
Proof.
  intros Hinv.
  destruct (place_panel_cases W H st p);
    auto using fresh_inv_put, fresh_inv_new_sheet.
Qed.

Lemma place_all_fresh (W H : Z) (l : list PanelInstance) :
  Forall opened_fresh (tl (place_all W H l)).
Proof.
  apply (fold_place_invariant W H fresh_inv (fun _ => True)).
  - intros st p Hst _. now apply fresh_inv_step.
  - apply Forall_forall. trivial.
  - constructor.
Qed.

(** X5: only the first sheet of a result can be empty; every later sheet
    holds a panel, and its first panel is not rotated. *)
Theorem later_sheets_start_unrotated (W H : Z)
    (panel_list : list PanelRequest) (i : nat) (s : Sheet) :
  nth_error (arrange_panels W H panel_list) (S i) = Some s ->
  exists q l, s = q :: l /\ rotated q = false.
Proof.
  intros Hnth.
  pose proof (place_all_fresh W H (sort_desc area (expand panel_list))) as Hf.
  fold (pack W H (expand panel_list)) in Hf.
  fold (arrange_panels W H panel_list) in Hf.
  destruct (arrange_panels W H panel_list) as [|s0 r]; [discriminate|].
  simpl in *. apply nth_error_In in Hnth.
  rewrite Forall_forall in Hf. apply Hf in Hnth.
  destruct s as [|q l]; [contradiction|].
  exists q, l. split; [reflexivity|]. apply Hnth.
Qed.

Lemma later_sheets_start_unrotated_witness :
  nth_error (arrange_panels 2440 1220 [mkRequest 600 2000 18 3]) 1
  = Some [mkPlaced 0 0 600 2000 18 false]
  /\ exists q l, [mkPlaced 0 0 600 2000 18 false] = q :: l
                 /\ rotated q = false.
Proof.
  assert (Hn : nth_error (arrange_panels 2440 1220 [mkRequest 600 2000 18 3]) 1
               = Some [mkPlaced 0 0 600 2000 18 false]) by reflexivity.
  split; [exact Hn|].
  exact (later_sheets_start_unrotated 2440 1220 _ 0%nat _ Hn).
Defined.

(** ** The number of sheets *)

Lemma sheets_grow_by_one (W H : Z) (st : PackingState) (p : PanelInstance) :
  (length (sheets (place_panel W H st p)) <= S (length (sheets st)))%nat.
Proof.
  destruct (place_panel_cases W H st p); simpl; try lia.
  rewrite length_app. simpl. lia.
Qed.

Lemma sheets_fold_length (W H : Z) (l : list PanelInstance) :
  forall st,
    (length (sheets (fold_left (place_panel W H) l st))
     <= length (sheets st) + length l)%nat.
Proof.
  induction l as [|p l IH]; intros st; simpl; [lia|].
  specialize (IH (place_panel W H st p)).
  pose proof (sheets_grow_by_one W H st p). lia.
Qed.

Lemma place_all_nonempty (W H : Z) (p : PanelInstance)
    (l : list PanelInstance) :
  fits_sheet W H p = true ->
  Forall (fun s : Sheet => s <> []) (place_all W H (p :: l)).
Proof.
  intros Hfit. unfold place_all. simpl.
  assert (Hinv : nonempty_inv
            (fold_left (place_panel W H) l (place_panel W H initial_state p))).
  { apply fold_place_invariant with (Q := fun _ => True).
    - intros st q Hst _. now apply nonempty_inv_step.
    - apply Forall_forall. trivial.
    - now apply first_panel_placed. }
  destruct Hinv as (Hsheets & Hcur).
  apply Forall_app. split; [exact Hsheets|]. constructor; [exact Hcur|constructor].
Qed.

Lemma length_concat_nonempty {A : Type} (r : list (list A)) :
  Forall (fun s => s <> []) r -> (length r <= length (concat r))%nat.
Proof.
  induction 1 as [|s r Hs _ IH]; simpl; [lia|].
  rewrite length_app. destruct s; [congruence|]. simpl. lia.
Qed.

Lemma pack_placement_count (W H : Z) (l : list PanelInstance) :
  length (concat (pack W H l)) = length l.
Proof.
  rewrite <- (length_map source_instance), pack_sources.
  apply sort_desc_length.
Qed.

(** X6: a result never has more than one sheet beyond the number of
    instances; and when there are instances and each of them fits the sheet
    in some orientation, it has no more sheets than instances. *)
Theorem sheet_count_bound (W H : Z) (panel_list : list PanelRequest) :
  (length (arrange_panels W H panel_list)
   <= S (length (expand panel_list)))%nat
  /\ (expand panel_list <> [] ->
      Forall (fun p => fits_sheet W H p = true) (expand panel_list) ->
      (length (arrange_panels W H panel_list)
       <= length (expand panel_list))%nat).
Proof.
  split.
  - unfold arrange_panels, pack, place_all. rewrite length_app. simpl.
    pose proof (sheets_fold_length W H (sort_desc area (expand panel_list))
                  initial_state) as Hlen.
    rewrite sort_desc_length in Hlen. simpl in Hlen. lia.
  - intros Hne Hfit.
    rewrite <- (pack_placement_count W H (expand panel_list)).
    apply length_concat_nonempty. unfold arrange_panels, pack.
    destruct (sort_desc_head_in area (expand panel_list) Hne)
      as (p & l' & -> & Hin).
    apply place_all_nonempty. rewrite Forall_forall in Hfit. auto.
Qed.

Lemma sheet_count_bound_witness :
  expand [mkRequest 600 2000 18 3] <> []
  /\ Forall (fun p => fits_sheet 2440 1220 p = true)
            (expand [mkRequest 600 2000 18 3])
  /\ (length (arrange_panels 2440 1220 [mkRequest 600 2000 18 3])
      <= length (expand [mkRequest 600 2000 18 3]))%nat.
Proof.
  assert (Hne : expand [mkRequest 600 2000 18 3] <> []) by discriminate.
  assert (Hfit : Forall (fun p => fits_sheet 2440 1220 p = true)
                        (expand [mkRequest 600 2000 18 3])).
  { repeat constructor. }
  split; [exact Hne|]. split; [exact Hfit|].
  exact (proj2 (sheet_count_bound 2440 1220 _) Hne Hfit).
Defined.

(** ** Positions are not negative *)

Lemma quadrant_inv_put (st : PackingState) (w h d : Z) (r : bool) :
  quadrant_inv st -> 0 <= w -> quadrant_inv (put st w h d r).
Proof.
  intros (Hx & Hy & Hr & Hall) Hw. unfold quadrant_inv.
  rewrite placements_put. simpl. repeat split; try lia.
  apply Forall_app. split; [exact Hall|].
  constructor; [|constructor]. unfold first_quadrant; simpl. lia.
Qed.

Lemma quadrant_inv_new_row (st : PackingState) :
  quadrant_inv st -> quadrant_inv (new_row st).
Proof.
  intros (Hx & Hy & Hr & Hall). unfold quadrant_inv, placements in *; simpl.
  repeat split; try lia. exact Hall.
Qed.

Lemma quadrant_inv_new_sheet (st : PackingState) (p : PanelInstance) :
  quadrant_inv st -> nonneg_dims p -> quadrant_inv (new_sheet st p).
Proof.
  intros (Hx & Hy & Hr & Hall) (Hw & Hh). unfold quadrant_inv.
  rewrite placements_new_sheet. simpl. repeat split; try lia.
  apply Forall_app. split; [exact Hall|].
  constructor; [|constructor]. unfold first_quadrant; simpl. lia.
Qed.

Lemma quadrant_inv_step (W H : Z) (st : PackingState) (p : PanelInstance) :
  quadrant_inv st -> nonneg_dims p -> quadrant_inv (place_panel W H st p).
Proof.
  intros Hinv Hp. pose proof Hp as (Hw & Hh).
  destruct (place_panel_cases W H st p);
    auto using quadrant_inv_put, quadrant_inv_new_row, quadrant_inv_new_sheet.
Qed.

(** X7: when no instance has a negative side, no placement has a negative
    coordinate, whether the instances fit the sheet or not. *)
Theorem positions_not_negative (W H : Z) (panel_list : list PanelRequest)
    (s : Sheet) (q : PlacedPanel) :
  Forall nonneg_dims (expand panel_list) ->
  In s (arrange_panels W H panel_list) -> In q s ->
  0 <= pos_x q /\ 0 <= pos_y q.
Proof.
  intros Hdims Hs Hq.
  assert (Hinv : quadrant_inv
            (fold_left (place_panel W H) (sort_desc area (expand panel_list))
                       initial_state)).
  { apply fold_place_invariant with (Q := nonneg_dims).
    - apply quadrant_inv_step.
    - now apply sort_desc_Forall.
    - unfold quadrant_inv, placements; simpl. repeat split; try lia.
      constructor. }
  destruct Hinv as (_ & _ & _ & Hall).
  rewrite <- concat_place_all in Hall. rewrite Forall_forall in Hall.
  apply Hall, in_concat. exists s. split; assumption.
Qed.

Lemma positions_not_negative_witness :
  Forall nonneg_dims (expand [mkRequest 3000 3000 18 1])
  /\ In [mkPlaced 0 0 3000 3000 18 false]
        (arrange_panels 2440 1220 [mkRequest 3000 3000 18 1])
  /\ 0 <= 0.
Proof.
  assert (Hd : Forall nonneg_dims (expand [mkRequest 3000 3000 18 1])).
  { repeat constructor; simpl; lia. }
  assert (Hs : In [mkPlaced 0 0 3000 3000 18 false]
                  (arrange_panels 2440 1220 [mkRequest 3000 3000 18 1])).
  { right. left. reflexivity. }
  split; [exact Hd|]. split; [exact Hs|].
  exact (proj1 (positions_not_negative 2440 1220 _ _
                  (mkPlaced 0 0 3000 3000 18 false) Hd Hs
                  (or_introl eq_refl))).
Defined.

(** ** Panels that fit side by side *)

Lemma sum_widths_nonneg (H : Z) (l : list PanelInstance) :
  Forall (fun p => 0 <= width p /\ height p <= H) l ->
  0 <= sum_Z (map width l).
Proof. induction 1 as [|p l [Hw _] _ IH]; simpl; lia. Qed.

Lemma fold_single_row (W H : Z) (l : list PanelInstance) :
  forall st,
    sheets st = [] -> y_cursor st = 0 ->
    Forall (fun p => 0 <= width p /\ height p <= H) l ->
    x_cursor st + sum_Z (map width l) <= W ->
    Forall (fun q => pos_y q = 0 /\ rotated q = false) (current_sheet st) ->
    let st' := fold_left (place_panel W H) l st in
    sheets st' = []
    /\ Forall (fun q => pos_y q = 0 /\ rotated q = false) (current_sheet st').
Proof.
  induction l as [|p l IH]; intros st Hs Hy Hl Hsum Hcur; simpl.
  - split; assumption.
  - inversion Hl as [|? ? [Hw Hh] Hl']; subst. simpl in Hsum.
    pose proof (sum_widths_nonneg H l Hl') as Hrest.
    pose proof (place_panel_branches W H st p) as Hb. cbv zeta in Hb.
    destruct Hb as [(_ & ->)|Hother].
    + apply IH; simpl; auto; try lia.
      apply Forall_app. split; [exact Hcur|].
      constructor; [|constructor]. simpl. split; [exact Hy|reflexivity].
    + exfalso.
      assert (HA : x_cursor st + width p <= W /\ y_cursor st + height p <= H)
        by lia.
      destruct Hother as [(Hn & _)|[(Hn & _)|[(Hn & _)|(Hn & _)]]];
        exact (Hn HA).
Qed.

(** X8: when no width is negative, no height exceeds the sheet height and
    the widths add up to no more than the sheet width, all panels go on one
    sheet, in one row at the upper edge, none of them rotated. *)
Theorem single_row (W H : Z) (instances : list PanelInstance) :
  Forall (fun p => 0 <= width p /\ height p <= H) instances ->
  sum_Z (map width instances) <= W ->
  exists row,
    pack W H instances = [row]
    /\ Forall (fun q => pos_y q = 0 /\ rotated q = false) row
    /\ map source_instance row = sort_desc area instances.
Proof.
  intros Hl Hsum.
  destruct (fold_single_row W H (sort_desc area instances) initial_state)
    as (Hs & Hrow); auto.
  - now apply sort_desc_Forall.
  - simpl. rewrite <- (sum_Z_perm (map width instances)); [exact Hsum|].
    apply Permutation_map, sort_desc_perm.
  - pose proof (pack_sources W H instances) as Hsrc.
    unfold pack, place_all in *. rewrite Hs in *. simpl in *.
    rewrite app_nil_r in Hsrc. eexists. repeat split; eauto.
Qed.

Lemma single_row_witness :
  Forall (fun p => 0 <= width p /\ height p <= 1220)
         [mkInstance 800 600 18; mkInstance 1000 700 12]
  /\ sum_Z (map width [mkInstance 800 600 18; mkInstance 1000 700 12]) <= 2440
  /\ exists row,
       pack 2440 1220 [mkInstance 800 600 18; mkInstance 1000 700 12] = [row]
       /\ Forall (fun q => pos_y q = 0 /\ rotated q = false) row
       /\ map source_instance row
          = sort_desc area [mkInstance 800 600 18; mkInstance 1000 700 12].
Proof.
  assert (Hl : Forall (fun p => 0 <= width p /\ height p <= 1220)
                      [mkInstance 800 600 18; mkInstance 1000 700 12]).
  { repeat constructor; simpl; lia. }
  assert (Hsum : sum_Z (map width [mkInstance 800 600 18;
                                   mkInstance 1000 700 12]) <= 2440).
  { simpl. lia. }
  split; [exact Hl|]. split; [exact Hsum|].
  exact (single_row 2440 1220 _ Hl Hsum).
Defined.

(** ** Earlier placements are never touched *)

Lemma continues_state (st0 st : PackingState) :
  continues (state_result st0) (state_result st) <->
  exists qs more,
    sheets st ++ [current_sheet st]
    = sheets st0 ++ (current_sheet st0 ++ qs) :: more.
Proof.
  unfold continues, state_result.
  rewrite removelast_last, last_last. reflexivity.
Qed.

Lemma snoc_or_nil {A : Type} (l : list A) :
  l = [] \/ exists l' a, l = l' ++ [a].
Proof.
  destruct l as [|a l]; [left; reflexivity|right].
  destruct (@exists_last A (a :: l)) as (l' & b & ->); [discriminate|].
  eauto.
Qed.

Lemma continues_put (st0 st : PackingState) (w h d : Z) (r : bool) :
  continues (state_result st0) (state_result st) ->
  continues (state_result st0) (state_result (put st w h d r)).
Proof.
  rewrite !continues_state. intros (qs & more & Heq). simpl.
  destruct (snoc_or_nil more) as [->|(more' & m & ->)].
  - apply app_inj_tail in Heq as [-> ->].
    exists (qs ++ [mkPlaced (x_cursor st) (y_cursor st) w h d r]), [].
    now rewrite app_assoc.
  - change ((current_sheet st0 ++ qs) :: more' ++ [m])
      with (((current_sheet st0 ++ qs) :: more') ++ [m]) in Heq.
    rewrite app_assoc in Heq. apply app_inj_tail in Heq as [-> ->].
    exists qs, (more' ++ [m ++ [mkPlaced (x_cursor st) (y_cursor st) w h d r]]).
    now rewrite <- app_assoc.
Qed.

Lemma continues_new_row (st0 st : PackingState) :
  continues (state_result st0) (state_result st) ->
  continues (state_result st0) (state_result (new_row st)).
Proof. trivial. Qed.

Lemma continues_new_sheet (st0 st : PackingState) (p : PanelInstance) :
  continues (state_result st0) (state_result st) ->
  continues (state_result st0) (state_result (new_sheet st p)).
Proof.
  rewrite !continues_state. intros (qs & more & Heq). simpl. rewrite Heq.
  exists qs, (more ++ [[mkPlaced 0 0 (width p) (height p) (depth p) false]]).
  now rewrite <- app_assoc.
Qed.

Lemma continues_fold (W H : Z) (l : list PanelInstance) (st0 : PackingState) :
  continues (state_result st0)
            (state_result (fold_left (place_panel W H) l st0)).
Proof.
  apply (fold_place_invariant W H
           (fun st => continues (state_result st0) (state_result st))
           (fun _ => True)).
  - intros st p Hst _.
    destruct (place_panel_cases W H st p);
      auto using continues_put, continues_new_row, continues_new_sheet.
  - apply Forall_forall. trivial.
  - apply continues_state. exists [], []. now rewrite app_nil_r.
Qed.

Lemma place_all_app_continues (W H : Z) (l1 l2 : list PanelInstance) :
  continues (place_all W H l1) (place_all W H (l1 ++ l2)).
Proof.
  unfold place_all. rewrite fold_left_app.
  apply (continues_fold W H l2
           (fold_left (place_panel W H) l1 initial_state)).
Qed.

(** X9: the loop never goes back on a placement.  Placing the instances
    [l1 ++ l2] in that order gives the sheets of placing [l1] alone, with
    further placements at the end of the last one and further sheets behind
    it. *)
Theorem placements_are_final (W H : Z) (l1 l2 : list PanelInstance) :
  exists qs more,
    place_all W H (l1 ++ l2)
    = removelast (place_all W H l1)
      ++ (last (place_all W H l1) [] ++ qs) :: more.
Proof. apply place_all_app_continues. Qed.

(** ** Adding a row to the panel table *)

Example first_row_added :
  add_panel initialize_panel_list 800 600 18 3 = [mkRequest 800 600 18 3].
Proof. reflexivity. Qed.

Lemma expand_app (l1 l2 : list PanelRequest) :
  expand (l1 ++ l2) = expand l1 ++ expand l2.
Proof. apply flat_map_app. Qed.

Lemma expand_add_panel (panel_list : list PanelRequest) (w h d q : Z) :
  expand (add_panel panel_list w h d q)
  = expand panel_list ++ repeat (mkInstance w h d) (Z.to_nat q).
Proof.
  unfold add_panel. rewrite expand_app. simpl. now rewrite app_nil_r.
Qed.

Section SortAppend.
Context {A : Type} (key : A -> Z).

Lemma insert_desc_app (a : A) (S R : list A) :
  Forall (fun b => key b <= key a) R ->
  insert_desc key a (S ++ R) = insert_desc key a S ++ R.
Proof.
  intros HR. induction S as [|c S IH]; simpl.
  - destruct HR as [|b R Hb HR]; simpl; [reflexivity|].
    destruct (key a <? key b) eqn:E; [|reflexivity].
    apply Z.ltb_lt in E. lia.
  - destruct (key a <? key c); [|reflexivity]. now rewrite IH.
Qed.

Lemma sort_desc_app_low (l R : list A) :
  sort_desc key R = R ->
  Forall (fun a => Forall (fun b => key b <= key a) R) l ->
  sort_desc key (l ++ R) = sort_desc key l ++ R.
Proof.
  intros HR. induction 1 as [|a l Ha _ IH]; simpl; [exact HR|].
  fold (sort_desc key (l ++ R)). fold (sort_desc key l).
  rewrite IH. now apply insert_desc_app.
Qed.

Lemma sort_desc_repeat (a : A) (n : nat) :
  sort_desc key (repeat a n) = repeat a n.
Proof.
  induction n as [|n IH]; simpl; [reflexivity|].
  fold (sort_desc key (repeat a n)). rewrite IH.
  destruct n; simpl; [reflexivity|]. now rewrite Z.ltb_irrefl.
Qed.
End SortAppend.

(** X10: a row added to the table whose panels are no larger in area than
    any panel already there leaves the earlier placements where they were:
    the new result keeps the closed sheets of the old one, extends its last
    sheet at the end and may add sheets behind it. *)
Theorem add_small_panel_keeps_layout (W H : Z)
    (panel_list : list PanelRequest) (w h d q : Z) :
  Forall (fun p => w * h <= area p) (expand panel_list) ->
  exists qs more,
    arrange_panels W H (add_panel panel_list w h d q)
    = removelast (arrange_panels W H panel_list)
      ++ (last (arrange_panels W H panel_list) [] ++ qs) :: more.
Proof.
  intros Hlow. unfold arrange_panels, pack.
  rewrite expand_add_panel, sort_desc_app_low.
  - apply place_all_app_continues.
  - apply sort_desc_repeat.
  - eapply Forall_impl; [|exact Hlow]. intros p Hp.
    apply Forall_forall. intros b Hb. apply repeat_spec in Hb. subst b.
    exact Hp.
Qed.

Lemma add_small_panel_keeps_layout_witness :
  Forall (fun p => 400 * 300 <= area p) (expand [mkRequest 800 600 18 3])
  /\ exists qs more,
       arrange_panels 2440 1220 (add_panel [mkRequest 800 600 18 3] 400 300 12 2)
       = removelast (arrange_panels 2440 1220 [mkRequest 800 600 18 3])
         ++ (last (arrange_panels 2440 1220 [mkRequest 800 600 18 3]) []
             ++ qs) :: more.
Proof.
  assert (Hlow : Forall (fun p => 400 * 300 <= area p)
                        (expand [mkRequest 800 600 18 3])).
  { repeat constructor; unfold area; simpl; lia. }
  split; [exact Hlow|].
  exact (add_small_panel_keeps_layout 2440 1220 _ 400 300 12 2 Hlow).
Defined.

(** ** Rows without panels *)

Lemma expand_skips_empty_rows (panel_list : list PanelRequest) :
  expand (filter (fun row => 0 <? quantity row) panel_list)
  = expand panel_list.
Proof.
  induction panel_list as [|row l IH]; simpl; [reflexivity|].
  destruct (0 <? quantity row) eqn:E; simpl; rewrite IH; [reflexivity|].
  apply Z.ltb_ge in E.
  replace (Z.to_nat (quantity row)) with 0%nat by lia. reflexivity.
Qed.

(** X11: rows whose quantity is zero or negative play no part in the
    packing: the result is that of the table without them. *)
Theorem rows_without_panels_ignored (W H : Z)
    (panel_list : list PanelRequest) :
  arrange_panels W H panel_list
  = arrange_panels W H (filter (fun row => 0 <? quantity row) panel_list).
Proof. unfold arrange_panels. now rewrite expand_skips_empty_rows. Qed.

(** ** The order of the requests *)

Section SortOrder.
Context {A : Type} (key : A -> Z).

Lemma insert_desc_comm (a b : A) (l : list A) :
  key a <> key b ->
  insert_desc key a (insert_desc key b l)
  = insert_desc key b (insert_desc key a l).
Proof.
  intros Hab. induction l as [|c l IH]; simpl.
  - destruct (key a <? key b) eqn:E1, (key b <? key a) eqn:E2;
      try reflexivity;
      rewrite ?Z.ltb_lt, ?Z.ltb_ge in *; lia.
  - destruct (key b <? key c) eqn:Eb, (key a <? key c) eqn:Ea; simpl;
      rewrite ?Eb, ?Ea.
    + now rewrite IH.
    + destruct (key b <? key a) eqn:E; [reflexivity|].
      rewrite ?Z.ltb_lt, ?Z.ltb_ge in *. lia.
    + destruct (key a <? key b) eqn:E; [reflexivity|].
      rewrite ?Z.ltb_lt, ?Z.ltb_ge in *. lia.
    + destruct (key a <? key b) eqn:E1, (key b <? key a) eqn:E2;
        simpl; rewrite ?Ea, ?Eb; try reflexivity;
        rewrite ?Z.ltb_lt, ?Z.ltb_ge in *; lia.
Qed.

Lemma sort_desc_distinct_keys (l1 l2 : list A) :
  Permutation l1 l2 -> NoDup (map key l1) ->
  sort_desc key l1 = sort_desc key l2.
Proof.
  induction 1 as [|a l1 l2 Hp IH|a b l|l1 l2 l3 Hp1 IH1 Hp2 IH2];
    intros Hnd; simpl.
  - reflexivity.
  - inversion Hnd; subst. fold (sort_desc key l1). fold (sort_desc key l2).
    now rewrite IH.
  - fold (sort_desc key l). apply insert_desc_comm.
    simpl in Hnd. inversion Hnd as [|? ? Hnotin _]; subst.
    intros Heq. apply Hnotin. left. symmetry. exact Heq.
  - rewrite IH1 by exact Hnd. apply IH2.
    eapply Permutation_NoDup; [|exact Hnd]. now apply Permutation_map.
Qed.
End SortOrder.

(** X12: the order of the instances matters only between instances of
    equal area: two sequences with the same instances, no two of them of
    the same area, are packed alike. *)
Theorem order_matters_only_for_ties (W H : Z) (l1 l2 : list PanelInstance) :
  Permutation l1 l2 -> NoDup (map area l1) ->
  pack W H l1 = pack W H l2.
Proof.
  intros Hp Hnd. unfold pack.
  now rewrite (sort_desc_distinct_keys area l1 l2 Hp Hnd).
Qed.

Lemma order_matters_only_for_ties_witness :
  Permutation [mkInstance 800 600 18; mkInstance 1000 700 12]
              [mkInstance 1000 700 12; mkInstance 800 600 18]
  /\ NoDup (map area [mkInstance 800 600 18; mkInstance 1000 700 12])
  /\ pack 2440 1220 [mkInstance 800 600 18; mkInstance 1000 700 12]
     = pack 2440 1220 [mkInstance 1000 700 12; mkInstance 800 600 18].
Proof.
  assert (Hp : Permutation [mkInstance 800 600 18; mkInstance 1000 700 12]
                           [mkInstance 1000 700 12; mkInstance 800 600 18])
    by apply perm_swap.
  assert (Hnd : NoDup (map area [mkInstance 800 600 18;
                                 mkInstance 1000 700 12])).
  { repeat constructor; simpl; intuition discriminate. }
  split; [exact Hp|]. split; [exact Hnd|].
  exact (order_matters_only_for_ties 2440 1220 _ _ Hp Hnd).
Defined.

(** ** The figures of the summary *)





(** X14: a table that asks for no panel at all, the empty table or one
    whose quantities are all zero, gives on a sheet with positive sides a
    summary of one sheet, a utilization of 0 and a waste of 100 percent. *)
Theorem summary_without_panels (W H : Z) (panel_list : list PanelRequest) :
  0 < W -> 0 < H ->
  Forall (fun row => quantity row = 0) panel_list ->
  let m := optimize_cutting W H panel_list in
  total_panels m = 0
  /\ sheet_count m = 1%nat
  /\ (utilization m == 0)%Q
  /\ (waste_percentage m == 100)%Q.
Proof.
  intros HW HH Hq m.
  assert (Hexp : expand panel_list = []).
  { induction Hq as [|row l Hrow _ IH]; simpl; [reflexivity|].
    rewrite Hrow. simpl. exact IH. }
  assert (Hsum : sum_Z (map quantity panel_list) = 0).
  { induction Hq as [|row l Hrow _ IH]; simpl; [reflexivity|].
    rewrite Hrow.
    assert (Hl : expand l = []).
    { simpl in Hexp. rewrite Hrow in Hexp. exact Hexp. }
    rewrite (IH Hl). reflexivity. }
  assert (Harea : sum_Z (map (fun row => panel_width row * panel_height row
                                         * quantity row) panel_list) = 0).
  { clear Hexp Hsum. induction Hq as [|row l Hrow _ IH]; simpl; [reflexivity|].
    rewrite Hrow, IH. lia. }
  assert (Hu : (utilization m == 0)%Q).
  { subst m. simpl. rewrite Harea. unfold Qdiv at 2. unfold Qdiv at 1.
    change (inject_Z 0) with 0%Q. rewrite !Qmult_0_l. reflexivity. }
  subst m. repeat split.
  - exact Hsum.
  - simpl. unfold arrange_panels. rewrite Hexp. reflexivity.
  - exact Hu.
  - simpl in *. rewrite Hu. reflexivity.
Qed.

Lemma summary_without_panels_witness :
  0 < 2440 /\ 0 < 1220
  /\ Forall (fun row => quantity row = 0) [mkRequest 800 600 18 0]
  /\ (waste_percentage (optimize_cutting 2440 1220 [mkRequest 800 600 18 0])
      == 100)%Q.
Proof.
  assert (HW : 0 < 2440) by lia.
  assert (HH : 0 < 1220) by lia.
  assert (Hq : Forall (fun row => quantity row = 0) [mkRequest 800 600 18 0]).
  { repeat constructor. }
  split; [exact HW|]. split; [exact HH|]. split; [exact Hq|].
  exact (proj2 (proj2 (proj2 (summary_without_panels 2440 1220 _ HW HH Hq)))).
Defined.
